(** * xgen: the Ruby emitter and the shared resolver, embedded in Rocq

    The development follows the two Go sources of the repository: the shared
    helpers of [utils.go] (identifier normaliser, built-in type table, type
    resolver) and the Ruby emitter ([GenRuby] and the [Ruby*] routines).

    Go strings are byte sequences; they are modelled by [string], whose
    characters are the 256 byte values.  Go maps are [gmap]s.  The generator
    object, which the Go code mutates in place, is threaded explicitly
    through the routines. *)

From Stdlib Require Import ssreflect Ascii NArith.
From stdpp Require Import base option list strings gmap fin_maps.

Set Warnings "-rewrite-rw".

(** ** Bytes that Go string literals write with an escape *)

Definition TAB : string := String "009" "".
Definition LF : string := String "010" "".
Definition CR : string := String "013" "".
Definition DQ : string := String "034" "".

(** ** The part of Go's runtime and library that the sources do not fix

    [range_order name m] is the order in which one [range] loop visits the
    entries of the member-type map [m] of the simple type called [name]; Go
    leaves that order to the runtime.  [unicode_ToLower] is what
    [strings.ToLower] does on a string holding a byte above 0x7f (the Unicode
    case tables). *)

Record GoRuntime := {
  range_order : string → gmap string string → list (string * string);
  unicode_ToLower : string → string
}.

(** A runtime is admissible when every [range] visits each entry once. *)
Definition admissible (rt : GoRuntime) : Prop :=
  ∀ name m, range_order rt name m ≡ₚ map_to_list m.

(** ** Go's [strings], [bytes] and [regexp] functions used by the sources *)

Module GoStr.

Local Open Scope N_scope.

Definition is_ascii (b : ascii) : bool := N_of_ascii b <? 128.
Definition is_upper (b : ascii) : bool :=
  (65 <=? N_of_ascii b) && (N_of_ascii b <=? 90).
Definition is_lower (b : ascii) : bool :=
  (97 <=? N_of_ascii b) && (N_of_ascii b <=? 122).
Definition is_digit (b : ascii) : bool :=
  (48 <=? N_of_ascii b) && (N_of_ascii b <=? 57).

Definition upper_byte (b : ascii) : ascii :=
  if is_lower b then ascii_of_N (N_of_ascii b - 32) else b.
Definition lower_byte (b : ascii) : ascii :=
  if is_upper b then ascii_of_N (N_of_ascii b + 32) else b.

(** The UTF-8 encoding of U+FFFD, which Go's case mappings write for a
    byte that is not valid UTF-8. *)
Definition RuneError : string := String "239" (String "191" (String "189" "")).

(** [strings.ToUpper] and [bytes.ToUpper] on a one-byte input: an ASCII
    byte is upper-cased, any other single byte is invalid UTF-8. *)
Definition ToUpper1 (b : ascii) : string :=
  if is_ascii b then String (upper_byte b) "" else RuneError.

Fixpoint all_ascii (s : string) : bool :=
  match s with
  | "" => true
  | String b s' => is_ascii b && all_ascii s'
  end.

Fixpoint map_bytes (f : ascii → ascii) (s : string) : string :=
  match s with
  | "" => ""
  | String b s' => String (f b) (map_bytes f s')
  end.

(** [strings.ToLower]. *)
Definition ToLower (rt : GoRuntime) (s : string) : string :=
  if all_ascii s then map_bytes lower_byte s else unicode_ToLower rt s.

(** [strings.Split(s, sep)] for a one-byte separator. *)
Fixpoint Split (s : string) (sep : ascii) : list string :=
  match s with
  | "" => [""]
  | String b s' =>
      if bool_decide (b = sep) then "" :: Split s' sep
      else match Split s' sep with
           | w :: ws => String b w :: ws
           | [] => [String b ""]
           end
  end.

(** [strings.Replace(s, old, new, -1)] and [strings.ReplaceAll(s, old, new)]
    for a one-byte [old]. *)
Fixpoint ReplaceAll (s : string) (old : ascii) (new : string) : string :=
  match s with
  | "" => ""
  | String b s' =>
      if bool_decide (b = old) then new +:+ ReplaceAll s' old new
      else String b (ReplaceAll s' old new)
  end.

(** [matchAllCap.ReplaceAllString(s, "${1}_${2}")] for the expression
    [([a-z0-9])([A-Z])]: leftmost matches, none overlapping. *)
Fixpoint matchAllCap_Replace (s : string) : string :=
  match s with
  | "" => ""
  | String a t =>
      match t with
      | String b t' =>
          if (is_lower a || is_digit a) && is_upper b
          then String a (String "_" (String b (matchAllCap_Replace t')))
          else String a (matchAllCap_Replace t)
      | "" => String a ""
      end
  end.

(** [strings.NewReplacer(old1, new1, ...).Replace(s)] for one-byte olds:
    each byte is replaced on its own, by the first pair that names it. *)
Fixpoint replacement (pairs : list (ascii * string)) (b : ascii) : string :=
  match pairs with
  | [] => String b ""
  | (old, new) :: pairs' =>
      if bool_decide (b = old) then new else replacement pairs' b
  end.

Fixpoint Replacer (pairs : list (ascii * string)) (s : string) : string :=
  match s with
  | "" => ""
  | String b s' => replacement pairs b +:+ Replacer pairs s'
  end.

(** [strings.Contains]. *)
Fixpoint Contains (s sub : string) : bool :=
  String.prefix sub s ||
  match s with
  | "" => false
  | String _ s' => Contains s' sub
  end.

End GoStr.

(** ** Identifier normaliser ([utils.go]) *)

Definition ToSnakeCase (rt : GoRuntime) (input : string) : string :=
  let output := GoStr.matchAllCap_Replace input in
  let output := GoStr.ReplaceAll output "-" "_" in
  GoStr.ToLower rt output.

Definition getNSPrefix (str : string) : string :=
  match GoStr.Split str ":" with
  | [ns; _] => ns
  | _ => ""
  end.

Definition trimNSPrefix (str : string) : string :=
  match GoStr.Split str ":" with
  | [_; name] => name
  | _ => str
  end.

Definition MakeFirstUpperCase (s : string) : string :=
  match s with
  | "" => ""
  | String b "" => GoStr.ToUpper1 b
  | String b rest => GoStr.ToUpper1 b +:+ rest
  end.

Definition genFieldComment (name doc prefix : string) : string :=
  let docReplacer :=
    GoStr.Replacer [("010"%char, CR +:+ LF +:+ prefix +:+ " "); ("009"%char, "")] in
  if bool_decide (doc = "")
  then CR +:+ LF +:+ prefix +:+ " " +:+ name +:+ " ..." +:+ CR +:+ LF
  else CR +:+ LF +:+ prefix +:+ " " +:+ name +:+ " is " +:+ docReplacer doc
       +:+ CR +:+ LF.

(** ** Proto tree *)

Module Attribute.

(** Modelled from the spec: the struct declarations of the proto tree nodes
    are not among the sources at hand.  Each record has the fields that the
    spec's data model lists for the construct and that the routines read. *)
Record t := Build {
  Name : string; Doc : string; Type_ : string; Plural : bool
}.
End Attribute.

Module Element.

(** Modelled from the spec: declaration of the Element node (see
    [Attribute.t]). *)
Record t := Build {
  Name : string; Doc : string; Type_ : string; Plural : bool
}.
End Element.

Module Group.

(** Modelled from the spec: declaration of the Group node; a group nests
    group references, of which the routines read name, reference and
    plurality. *)
#[warnings="-register-all"]
Inductive t := Build {
  Name : string; Doc : string;
  Elements : list Element.t; Groups : list t;
  Plural : bool; Ref : string
}.
End Group.

Module AttributeGroup.

(** Modelled from the spec: declaration of the AttributeGroup node. *)
Record t := Build {
  Name : string; Doc : string; Ref : string;
  Attributes : list Attribute.t
}.
End AttributeGroup.

Module ComplexType.

(** Modelled from the spec: declaration of the ComplexType node. *)
Record t := Build {
  Name : string; Doc : string;
  AttributeGroup : list AttributeGroup.t;
  Attributes : list Attribute.t;
  Groups : list Group.t;
  Elements : list Element.t
}.
End ComplexType.

Module SimpleType.

(** Modelled from the spec: declaration of the SimpleType node; the member
    types of a union are a Go map from member name to member type. *)
Record t := Build {
  Name : string; Doc : string; Base : string;
  List : bool; Union : bool;
  MemberTypes : gmap string string
}.
End SimpleType.

(** An entry of the proto tree, a Go [interface{}]: nil, a pointer to one of
    the six constructs that have a Ruby routine, or a pointer to a construct
    of another kind. *)
Inductive Node :=
  | NilNode
  | SimpleTypeNode (v : SimpleType.t)
  | ComplexTypeNode (v : ComplexType.t)
  | GroupNode (v : Group.t)
  | AttributeGroupNode (v : AttributeGroup.t)
  | ElementNode (v : Element.t)
  | AttributeNode (v : Attribute.t)
  | OtherNode.

(** ** Built-in type table ([utils.go]) *)

Definition BuildInTypes_rows : list (string * list string) := [
  ("anyType",            ["string"; "string"; "char"; "String"; "String"; "String"]);
  ("ENTITIES",           ["[]string"; "Array<string>"; "char[]"; "List<String>"; "Vec<String>"; "Array"]);
  ("ENTITY",             ["string"; "string"; "char"; "String"; "String"; "String"]);
  ("ID",                 ["string"; "string"; "char"; "String"; "String"; "String"]);
  ("IDREF",              ["string"; "string"; "char"; "String"; "String"; "String"]);
  ("IDREFS",             ["[]string"; "Array<string>"; "char[]"; "List<String>"; "Vec<String>"; "Array"]);
  ("NCName",             ["string"; "string"; "char"; "String"; "String"; "String"]);
  ("NMTOKEN",            ["string"; "string"; "char"; "String"; "String"; "String"]);
  ("NMTOKENS",           ["[]string"; "Array<string>"; "char[]"; "List<String>"; "Vec<String>"; "Array"]);
  ("NOTATION",           ["[]string"; "Array<string>"; "char[]"; "List<String>"; "Vec<String>"; "Array"]);
  ("Name",               ["string"; "string"; "char"; "String"; "String"; "String"]);
  ("QName",              ["xml.Name"; "any"; "char"; "String"; "String"; "String"]);
  ("anyURI",             ["string"; "string"; "char"; "QName"; "String"; "String"]);
  ("base64Binary",       ["[]byte"; "Uint8Array"; "char[]"; "List<Byte>"; "String"; "Array"]);
  ("boolean",            ["bool"; "boolean"; "bool"; "Boolean"; "bool"; "Boolean"]);
  ("byte",               ["byte"; "any"; "char[]"; "Byte"; "u8"; "String"]);
  ("date",               ["time.Time"; "string"; "char"; "Byte"; "u8"; "Date"]);
  ("dateTime",           ["time.Time"; "string"; "char"; "Byte"; "u8"; "DateTime"]);
  ("decimal",            ["float64"; "number"; "float"; "Float"; "f64"; "Float"]);
  ("double",             ["float64"; "number"; "float"; "Float"; "f64"; "Float"]);
  ("duration",           ["string"; "string"; "char"; "String"; "String"; "String"]);
  ("float",              ["float"; "number"; "float"; "Float"; "f64"; "Float"]);
  ("gDay",               ["time.Time"; "string"; "char"; "String"; "String"; "String"]);
  ("gMonth",             ["time.Time"; "string"; "char"; "String"; "String"; "String"]);
  ("gMonthDay",          ["time.Time"; "string"; "char"; "String"; "String"; "String"]);
  ("gYear",              ["time.Time"; "string"; "char"; "String"; "String"; "String"]);
  ("gYearMonth",         ["time.Time"; "string"; "char"; "String"; "String"; "String"]);
  ("hexBinary",          ["[]byte"; "Uint8Array"; "char[]"; "List<Byte>"; "String"; "Array"]);
  ("int",                ["int"; "number"; "int"; "Integer"; "i32"; "Integer"]);
  ("integer",            ["int"; "number"; "int"; "Integer"; "i32"; "Integer"]);
  ("language",           ["string"; "string"; "char"; "String"; "String"; "String"]);
  ("long",               ["int64"; "number"; "int"; "Long"; "i64"; "Integer"]);
  ("negativeInteger",    ["int"; "number"; "int"; "Integer"; "i32"; "Integer"]);
  ("nonNegativeInteger", ["int"; "number"; "int"; "Integer"; "u32"; "Integer"]);
  ("normalizedString",   ["string"; "string"; "char"; "String"; "String"; "String"]);
  ("nonPositiveInteger", ["int"; "number"; "int"; "Integer"; "i32"; "Integer"]);
  ("positiveInteger",    ["int"; "number"; "int"; "Integer"; "u32"; "Integer"]);
  ("short",              ["int16"; "number"; "int"; "Integer"; "i16"; "Integer"]);
  ("string",             ["string"; "string"; "char"; "String"; "String"; "String"]);
  ("time",               ["time.Time"; "string"; "char"; "String"; "String"; "Time"]);
  ("token",              ["string"; "string"; "char"; "String"; "String"; "String"]);
  ("unsignedByte",       ["byte"; "any"; "char"; "Byte"; "u8"; "String"]);
  ("unsignedInt",        ["uint32"; "number"; "unsigned int"; "Integer"; "u32"; "Integer"]);
  ("unsignedLong",       ["uint64"; "number"; "unsigned int"; "Long"; "u64"; "Bignum"]);
  ("unsignedShort",      ["uint16"; "number"; "unsigned int"; "Short"; "u16"; "Integer"]);
  ("xml:lang",           ["string"; "string"; "char"; "String"; "String"; "String"]);
  ("xml:space",          ["string"; "string"; "char"; "String"; "String"; "String"]);
  ("xml:base",           ["string"; "string"; "char"; "String"; "String"; "String"]);
  ("xml:id",             ["string"; "string"; "char"; "String"; "String"; "String"])
].

Definition BuildInTypes : gmap string (list string) :=
  list_to_map BuildInTypes_rows.

Definition supportLang_rows : list (string * nat) := [
  ("Go", 0); ("TypeScript", 1); ("C", 2);
  ("Java", 3); ("Rust", 4); ("Ruby", 5)
].

Definition supportLang : gmap string nat := list_to_map supportLang_rows.

(** The result is [(buildType, ok)]; [None] stands for the run-time panic of
    an index out of range.  Reading an absent key of a Go map yields the zero
    value, here column 0. *)
Definition getBuildInTypeByLang (value lang : string) : option (string * bool) :=
  match BuildInTypes !! value with
  | None => Some ("", false)
  | Some buildInTypes =>
      match buildInTypes !! default 0 (supportLang !! lang) with
      | Some buildType => Some (buildType, true)
      | None => None
      end
  end.

(** ** Type resolver ([utils.go]) *)

Fixpoint getBasefromSimpleType (name : string) (XSDSchema : list Node) : string :=
  match XSDSchema with
  | [] => name
  | ele :: rest =>
      match ele with
      | SimpleTypeNode v =>
          if negb (SimpleType.List v) && negb (SimpleType.Union v)
             && bool_decide (SimpleType.Name v = name)
          then SimpleType.Base v
          else getBasefromSimpleType name rest
      | AttributeNode v =>
          if bool_decide (Attribute.Name v = name)
          then Attribute.Type_ v
          else getBasefromSimpleType name rest
      | ElementNode v =>
          if bool_decide (Element.Name v = name)
          then Element.Type_ v
          else getBasefromSimpleType name rest
      | _ => getBasefromSimpleType name rest
      end
  end.

(** ** Ruby emitter *)

Definition rubyBuildinType : gmap string bool :=
  list_to_map [
    ("Array", true); ("Decimal", true); ("decimal", true); ("Float", true);
    ("float", true); ("String", true); ("string", true); ("Time", true);
    ("Date", true); ("DateTime", true); ("Integer", true); ("Number", true)
  ].

(** [for _, str := range l { acc += MakeFirstUpperCase(str) }] *)
Definition appendUpperFirst (acc : string) (l : list string) : string :=
  foldl (λ acc str, acc +:+ MakeFirstUpperCase str) acc l.

Definition genRubyFieldName (name : string) : string :=
  let fieldName := appendUpperFirst "" (GoStr.Split name ":") in
  let tmp := appendUpperFirst "" (GoStr.Split fieldName ".") in
  let fieldName := tmp in
  GoStr.ReplaceAll (GoStr.ReplaceAll fieldName "-" "") "_" "".

Definition genRubyFieldType (name : string) : string :=
  match rubyBuildinType !! name with
  | Some _ => name
  | None =>
      let fieldType := appendUpperFirst "" (GoStr.Split name ".") in
      let fieldType :=
        GoStr.ReplaceAll
          (MakeFirstUpperCase (GoStr.ReplaceAll fieldType "-" "")) "_" "" in
      if bool_decide (fieldType ≠ "") then fieldType else "String"
  end.

(** Modelled from the spec: the declaration of the generator object is not
    among the sources at hand.  These are the fields the Ruby emitter reads
    and writes: the output base name, the proto tree, the cache from schema
    name to generated fragment, the accumulator and the cross-cutting flag. *)
Record CodeGenerator := {
  File : string;
  ProtoTree : list Node;
  StructAST : gmap string string;
  Field : string;
  ImportEncodingXML : bool
}.

(** [gen.StructAST[name] = content] *)
Definition store (gen : CodeGenerator) (name content : string) : CodeGenerator :=
  {| File := File gen; ProtoTree := ProtoTree gen;
     StructAST := <[name := content]> (StructAST gen);
     Field := Field gen; ImportEncodingXML := ImportEncodingXML gen |}.

(** [gen.StructAST[name]] read as a value: the zero value when absent. *)
Definition cached (gen : CodeGenerator) (name : string) : string :=
  default "" (StructAST gen !! name).

(** [gen.Field += text] *)
Definition addField (gen : CodeGenerator) (text : string) : CodeGenerator :=
  {| File := File gen; ProtoTree := ProtoTree gen;
     StructAST := StructAST gen;
     Field := Field gen +:+ text; ImportEncodingXML := ImportEncodingXML gen |}.

(** [gen.ImportEncodingXML = true] *)
Definition importEncodingXML (gen : CodeGenerator) : CodeGenerator :=
  {| File := File gen; ProtoTree := ProtoTree gen;
     StructAST := StructAST gen;
     Field := Field gen; ImportEncodingXML := true |}.

(** The generator at the start of a run over [tree]. *)
Definition newGenerator (file : string) (tree : list Node) : CodeGenerator :=
  {| File := file; ProtoTree := tree; StructAST := ∅; Field := "";
     ImportEncodingXML := false |}.

(** The format strings of the emitter, each a [fmt.Sprintf] with [%s] verbs
    only. *)

(** Format [\t\ttag "%s"\n]. *)
Definition fmtTag (name : string) : string :=
  TAB +:+ TAB +:+ "tag " +:+ DQ +:+ name +:+ DQ +:+ LF.

(** Format [\t\t%s :%s, 'OTA::%s', tag: '%s'\n]. *)
Definition fmtMember (kind field type tag : string) : string :=
  TAB +:+ TAB +:+ kind +:+ " :" +:+ field +:+ ", 'OTA::" +:+ type
  +:+ "', tag: '" +:+ tag +:+ "'" +:+ LF.

(** Format [\t%s\t%s%s\n]. *)
Definition fmtGroupMember (field plural type : string) : string :=
  TAB +:+ field +:+ TAB +:+ plural +:+ type +:+ LF.

(** Format [\t%s\tclass %s\n\t\tinclude XmlMapper\n\n%s]. *)
Definition fmtClass (comment fieldName body : string) : string :=
  TAB +:+ comment +:+ TAB +:+ "class " +:+ fieldName +:+ LF
  +:+ TAB +:+ TAB +:+ "include XmlMapper" +:+ LF +:+ LF +:+ body.

(** Format [\t%s\tclass %s%send\n]. *)
Definition fmtAlias (comment fieldName body : string) : string :=
  TAB +:+ comment +:+ TAB +:+ "class " +:+ fieldName +:+ body +:+ "end" +:+ LF.

(** The opening shared by the routines that emit a class with a body: the
    tag line and the flag, when the identifier differs from the raw name. *)
Definition openBody (gen : CodeGenerator) (fieldName name : string)
  : CodeGenerator * string :=
  let content := "" in
  if bool_decide (fieldName ≠ name)
  then (importEncodingXML gen, content +:+ fmtTag name)
  else (gen, content).

Definition RubySimpleType (rt : GoRuntime) (v : SimpleType.t)
    (gen : CodeGenerator) : CodeGenerator :=
  let name := SimpleType.Name v in
  let afterList :=
    if SimpleType.Union v && bool_decide (0 < size (SimpleType.MemberTypes v))
    then
      match StructAST gen !! name with
      | None =>
          let fieldName := genRubyFieldName name in
          let '(gen, content) := openBody gen fieldName name in
          let content :=
            foldl (λ content '(memberName, memberType),
                     let memberType :=
                       if bool_decide (memberType = "")
                       then getBasefromSimpleType memberName (ProtoTree gen)
                       else memberType in
                     content +:+ fmtMember "attribute"
                       (ToSnakeCase rt (genRubyFieldName memberName))
                       (genRubyFieldType memberType) memberName)
                  content (range_order rt name (SimpleType.MemberTypes v)) in
          let content := content +:+ TAB +:+ "end" +:+ LF in
          let gen := store gen name content in
          addField gen
            (fmtClass (genFieldComment fieldName (SimpleType.Doc v) "#")
               fieldName (cached gen name) +:+ LF)
      | Some _ => gen
      end
    else
      match StructAST gen !! name with
      | None =>
          let content :=
            " " +:+ genRubyFieldType
                      (getBasefromSimpleType
                         (trimNSPrefix (SimpleType.Base v)) (ProtoTree gen)) in
          let gen := store gen name content in
          let fieldName := genRubyFieldName name in
          addField gen
            (TAB +:+ genFieldComment fieldName (SimpleType.Doc v) "#" +:+ TAB
             +:+ "class " +:+ fieldName +:+ " <" +:+ cached gen name
             +:+ "; end" +:+ LF)
      | Some _ => gen
      end in
  if SimpleType.List v then
    match StructAST gen !! name with
    | None =>
        let fieldType :=
          genRubyFieldType
            (getBasefromSimpleType
               (trimNSPrefix (SimpleType.Base v)) (ProtoTree gen)) in
        let content := " " +:+ genRubyFieldType fieldType in
        let gen := store gen name content in
        let fieldName := genRubyFieldName name in
        addField gen
          (genFieldComment fieldName (SimpleType.Doc v) "#" +:+ LF
           +:+ "class " +:+ fieldName +:+ " < " +:+ cached gen name
           +:+ "; end" +:+ LF)
    | Some _ => afterList
    end
  else afterList.

(** The type resolved for a reference, as every member line computes it. *)
Definition resolvedType (gen : CodeGenerator) (reference : string) : string :=
  genRubyFieldType
    (getBasefromSimpleType (trimNSPrefix reference) (ProtoTree gen)).

(** The loop over nested group references, the same in [RubyComplexType] and
    [RubyGroup]. *)
Definition groupMembers (rt : GoRuntime) (gen : CodeGenerator)
    (content : string) (groups : list Group.t) : string :=
  foldl (λ content group,
           let plural := "" in
           let plural := if Group.Plural group then "" else plural in
           content +:+ fmtGroupMember
             (ToSnakeCase rt (genRubyFieldName (Group.Name group))) plural
             (resolvedType gen (Group.Ref group)))
        content groups.

Definition RubyComplexType (rt : GoRuntime) (v : ComplexType.t)
    (gen : CodeGenerator) : CodeGenerator :=
  let name := ComplexType.Name v in
  match StructAST gen !! name with
  | None =>
      let fieldName := genRubyFieldName name in
      let '(gen, content) := openBody gen fieldName name in
      let content :=
        foldl (λ content attrGroup,
                 let fieldType :=
                   getBasefromSimpleType
                     (trimNSPrefix (AttributeGroup.Ref attrGroup))
                     (ProtoTree gen) in
                 content +:+ fmtMember "element"
                   (ToSnakeCase rt (genRubyFieldName (AttributeGroup.Name attrGroup)))
                   (genRubyFieldType fieldType)
                   (genRubyFieldName (AttributeGroup.Name attrGroup)))
              content (ComplexType.AttributeGroup v) in
      let content :=
        foldl (λ content attribute,
                 let plural := "attribute" in
                 let plural :=
                   if Attribute.Plural attribute then "has_many" else plural in
                 let fieldType := resolvedType gen (Attribute.Type_ attribute) in
                 content +:+ fmtMember plural
                   (ToSnakeCase rt (genRubyFieldName (Attribute.Name attribute)))
                   fieldType (Attribute.Name attribute))
              content (ComplexType.Attributes v) in
      let content := groupMembers rt gen content (ComplexType.Groups v) in
      let content :=
        foldl (λ content element,
                 let plural := "element" in
                 let plural :=
                   if Element.Plural element then "has_many" else plural in
                 let fieldType := resolvedType gen (Element.Type_ element) in
                 content +:+ fmtMember plural
                   (ToSnakeCase rt (genRubyFieldName (Element.Name element)))
                   fieldType (Element.Name element))
              content (ComplexType.Elements v) in
      let content := content +:+ TAB +:+ "end" +:+ LF in
      let gen := store gen name content in
      addField gen
        (fmtClass (genFieldComment fieldName (ComplexType.Doc v) "#")
           fieldName (cached gen name))
  | Some _ => gen
  end.

Definition RubyGroup (rt : GoRuntime) (v : Group.t)
    (gen : CodeGenerator) : CodeGenerator :=
  let name := Group.Name v in
  match StructAST gen !! name with
  | None =>
      let fieldName := genRubyFieldName name in
      let '(gen, content) := openBody gen fieldName name in
      let content :=
        foldl (λ content element,
                 let plural := "" in
                 let plural := if Element.Plural element then "" else plural in
                 content +:+ fmtGroupMember
                   (ToSnakeCase rt (genRubyFieldName (Element.Name element)))
                   plural (resolvedType gen (Element.Type_ element)))
              content (Group.Elements v) in
      let content := groupMembers rt gen content (Group.Groups v) in
      let content := content +:+ TAB +:+ "end" +:+ LF in
      let gen := store gen name content in
      addField gen
        (fmtClass (genFieldComment fieldName (Group.Doc v) "#")
           fieldName (cached gen name))
  | Some _ => gen
  end.

Definition RubyAttributeGroup (rt : GoRuntime) (v : AttributeGroup.t)
    (gen : CodeGenerator) : CodeGenerator :=
  let name := AttributeGroup.Name v in
  match StructAST gen !! name with
  | None =>
      let fieldName := genRubyFieldName name in
      let '(gen, content) := openBody gen fieldName name in
      let content :=
        foldl (λ content attribute,
                 content +:+ fmtMember "attribute"
                   (ToSnakeCase rt (genRubyFieldName (Attribute.Name attribute)))
                   (resolvedType gen (Attribute.Type_ attribute))
                   (Attribute.Name attribute))
              content (AttributeGroup.Attributes v) in
      let content := content +:+ TAB +:+ "end" +:+ LF in
      let gen := store gen name content in
      addField gen
        (fmtClass (genFieldComment fieldName (AttributeGroup.Doc v) "#")
           fieldName (cached gen name))
  | Some _ => gen
  end.

Definition RubyElement (v : Element.t) (gen : CodeGenerator) : CodeGenerator :=
  let name := Element.Name v in
  match StructAST gen !! name with
  | None =>
      let plural := resolvedType gen (Element.Type_ v) in
      let plural := if Element.Plural v then "Array" else plural in
      let content := " < " +:+ plural +:+ "; " in
      let gen := store gen name content in
      let fieldName := genRubyFieldName name in
      addField gen
        (fmtAlias (genFieldComment fieldName (Element.Doc v) "#")
           fieldName (cached gen name))
  | Some _ => gen
  end.

Definition RubyAttribute (v : Attribute.t) (gen : CodeGenerator) : CodeGenerator :=
  let name := Attribute.Name v in
  match StructAST gen !! name with
  | None =>
      let plural := resolvedType gen (Attribute.Type_ v) in
      let plural := if Attribute.Plural v then "Array" else plural in
      let content := " < " +:+ plural +:+ "; " in
      let gen := store gen name content in
      let fieldName := genRubyFieldName name in
      addField gen
        (fmtAlias (genFieldComment fieldName (Attribute.Doc v) "#")
           fieldName (cached gen name))
  | Some _ => gen
  end.

(** One turn of the loop of [GenRuby]: a nil entry is skipped; otherwise the
    routine named after the node's kind is looked up and called, and a kind
    without a routine is skipped. *)
Definition dispatch (rt : GoRuntime) (gen : CodeGenerator) (ele : Node)
  : CodeGenerator :=
  match ele with
  | NilNode => gen
  | SimpleTypeNode v => RubySimpleType rt v gen
  | ComplexTypeNode v => RubyComplexType rt v gen
  | GroupNode v => RubyGroup rt v gen
  | AttributeGroupNode v => RubyAttributeGroup rt v gen
  | ElementNode v => RubyElement v gen
  | AttributeNode v => RubyAttribute v gen
  | OtherNode => gen
  end.

(** The generation pass over a sequence of nodes. *)
Definition pass (rt : GoRuntime) (gen : CodeGenerator) (nodes : list Node)
  : CodeGenerator :=
  foldl (dispatch rt) gen nodes.

(** ** Output assembler *)

(** A Go [error] value; the nil error is [None : option error]. *)
Definition error := string.

(** The artifact sink: for a path, whether [os.Create] fails; for a path and
    the bytes handed to [Write] on the created file, whether the write
    fails. *)
Record Sink := {
  os_Create : string → option error;
  file_Write : string → string → option error
}.

Definition banner : string := "# Code generated by xgen. DO NOT EDIT.".

Definition source (gen : CodeGenerator) : string :=
  "# frozen_string_literal: true" +:+ LF +:+ LF +:+ banner +:+ LF +:+ LF
  +:+ "require 'xmlmapper'" +:+ LF +:+ LF +:+ "module Ota" +:+ LF +:+ TAB
  +:+ Field gen +:+ LF +:+ "end".

(** [GenRuby] returns the generator as the pass leaves it and the error
    value; the result of [f.Write] is bound to nothing, as in the source. *)
Definition GenRuby (rt : GoRuntime) (sink : Sink) (gen : CodeGenerator)
  : CodeGenerator * option error :=
  let gen := pass rt gen (ProtoTree gen) in
  let err := os_Create sink (File gen +:+ ".rb") in
  match err with
  | Some _ => (gen, err)
  | None =>
      let _ := file_Write sink (File gen +:+ ".rb") (source gen) in
      (gen, err)
  end.

(** * Notions used in the statements *)

(** The normalisation in the words of the specification: every segment
    between dots gets its first letter upper-cased, then all hyphens and
    underscores go. *)
Definition normalization (name : string) : string :=
  GoStr.ReplaceAll
    (GoStr.ReplaceAll (appendUpperFirst "" (GoStr.Split name ".")) "-" "")
    "_" "".

(** The six language names that [supportLang] knows. *)
Definition languages : list string :=
  ["Go"; "TypeScript"; "C"; "Java"; "Rust"; "Ruby"].

(** What one node answers to a lookup of [name]: the three cases of the type
    switch of [getBasefromSimpleType]. *)
Definition resolves (name : string) (ele : Node) : option string :=
  match ele with
  | SimpleTypeNode v =>
      if negb (SimpleType.List v) && negb (SimpleType.Union v)
         && bool_decide (SimpleType.Name v = name)
      then Some (SimpleType.Base v) else None
  | AttributeNode v =>
      if bool_decide (Attribute.Name v = name)
      then Some (Attribute.Type_ v) else None
  | ElementNode v =>
      if bool_decide (Element.Name v = name)
      then Some (Element.Type_ v) else None
  | _ => None
  end.

(** The schema name under which a node is cached; nil entries and kinds
    without a routine have none. *)
Definition nodeName (n : Node) : option string :=
  match n with
  | SimpleTypeNode v => Some (SimpleType.Name v)
  | ComplexTypeNode v => Some (ComplexType.Name v)
  | GroupNode v => Some (Group.Name v)
  | AttributeGroupNode v => Some (AttributeGroup.Name v)
  | ElementNode v => Some (Element.Name v)
  | AttributeNode v => Some (Attribute.Name v)
  | NilNode | OtherNode => None
  end.

(** The text a node's routine appends when it runs on an empty cache, over
    the tree [tree]. *)
Definition declaration (rt : GoRuntime) (tree : list Node) (n : Node) : string :=
  Field (dispatch rt (newGenerator "" tree) n).

(** [gen'] is [gen] after one emission under [k]: one new cache entry, [text]
    appended, the flag possibly raised, nothing else touched. *)
Definition emitted (gen gen' : CodeGenerator) (k text : string) : Prop :=
  ∃ content,
    StructAST gen' = <[k := content]> (StructAST gen)
    ∧ Field gen' = Field gen +:+ text
    ∧ ProtoTree gen' = ProtoTree gen
    ∧ File gen' = File gen.

(** The concatenation of a list of texts. *)
Fixpoint joinAll (l : list string) : string :=
  match l with
  | [] => ""
  | s :: l' => s +:+ joinAll l'
  end.

(** The nodes of [nodes] that emit, given the set [seen] of names already in
    the cache: the first node of each name not yet seen. *)
Fixpoint emitting (seen : gset string) (nodes : list Node) : list Node :=
  match nodes with
  | [] => []
  | n :: rest =>
      match nodeName n with
      | Some k =>
          if bool_decide (k ∈ seen) then emitting seen rest
          else n :: emitting ({[k]} ∪ seen) rest
      | None => emitting seen rest
      end
  end.

(** [text] holds the tag line of [name]. *)
Definition carries (name text : string) : Prop :=
  ∃ pre post, text = pre +:+ fmtTag name +:+ post.

(** [gen'] is [gen] after the emission of a declaration that carries the tag
    of [name], with the flag raised. *)
Definition tagged (gen gen' : CodeGenerator) (name : string) : Prop :=
  (∃ decl, Field gen' = Field gen +:+ decl ∧ carries name decl)
  ∧ ImportEncodingXML gen' = true.

(** A member with its plurality flag set to [b]. *)
Definition setElementPlural (b : bool) (e : Element.t) : Element.t :=
  Element.Build (Element.Name e) (Element.Doc e) (Element.Type_ e) b.

(** A group reference with its plurality flag set to [b]. *)
Definition setGroupPlural (b : bool) (g : Group.t) : Group.t :=
  Group.Build (Group.Name g) (Group.Doc g) (Group.Elements g)
    (Group.Groups g) b (Group.Ref g).

(** * Sample runtimes, sinks and nodes *)

(** Two admissible runtimes that visit a map in opposite orders. *)
Definition forwardRuntime : GoRuntime :=
  {| range_order := λ _ m, map_to_list m; unicode_ToLower := λ s, s |}.
Definition backwardRuntime : GoRuntime :=
  {| range_order := λ _ m, reverse (map_to_list m); unicode_ToLower := λ s, s |}.

(** A sink on which the file is created and the write fails. *)
Definition fullDisk : Sink :=
  {| os_Create := λ _, None;
     file_Write := λ _ _, Some "no space left on device" |}.

(** A sink on which both operations succeed. *)
Definition goodDisk : Sink :=
  {| os_Create := λ _, None; file_Write := λ _ _, None |}.

(** An element and, after it, a plain simple type, both called [Code]. *)
Definition Code_element : Element.t := Element.Build "Code" "" "string" false.
Definition Code_simpleType : SimpleType.t :=
  SimpleType.Build "Code" "" "int" false false ∅.

(** The union of scenario 2 of the specification. *)
Definition Currency : SimpleType.t :=
  SimpleType.Build "Currency" "" "" false true {[ "USD" := ""; "EUR" := "" ]}.

(** A user-defined simple type that bears the name of a built-in. *)
Definition string_simpleType : SimpleType.t :=
  SimpleType.Build "string" "" "Foo" false false ∅.

(** A group whose only member is a repeated element. *)
Definition Items (plural : bool) : Group.t :=
  Group.Build "Items" "" [Element.Build "item" "" "Product" plural] [] false "".

(** The element of scenario 4 of the specification. *)
Definition customer_id : Element.t :=
  Element.Build "customer-id" "" "string" false.

(** A complex type whose raw name holds a hyphen. *)
Definition purchase_order : ComplexType.t :=
  ComplexType.Build "purchase-order" "" []
    [Attribute.Build "id" "" "string" false] [] [].

(** * Notions used in the further properties *)

(** The number of occurrences of the byte [c] in [s]. *)
Fixpoint countByte (c : ascii) (s : string) : nat :=
  match s with
  | "" => 0
  | String b s' => (if bool_decide (b = c) then 1 else 0) + countByte c s'
  end.

(** Every byte of [s] passes the test [P]. *)
Fixpoint allBytes (P : ascii → bool) (s : string) : bool :=
  match s with
  | "" => true
  | String b s' => P b && allBytes P s'
  end.

(** The byte [c] does not occur in [s]. *)
Definition freeOf (c : ascii) (s : string) : bool :=
  allBytes (λ b, negb (bool_decide (b = c))) s.

(** [strings.Join(l, sep)] for a one-byte separator. *)
Fixpoint joinWith (sep : ascii) (l : list string) : string :=
  match l with
  | [] => ""
  | [w] => w
  | w :: ws => w +:+ String sep (joinWith sep ws)
  end.

(** [s] is empty or starts with an ASCII byte. *)
Definition asciiFirst (s : string) : bool :=
  match s with
  | "" => true
  | String b _ => GoStr.is_ascii b
  end.

(** A byte that may stand in a snake-case name: an ASCII byte that is neither
    an upper-case letter nor a hyphen. *)
Definition snakeByte (b : ascii) : bool :=
  GoStr.is_ascii b && negb (GoStr.is_upper b) && negb (bool_decide (b = "-"%char)).

(** None of the bytes [:], [.], [-] and [_] occurs in [s]. *)
Definition identifierSafe (s : string) : bool :=
  freeOf ":" s && freeOf "." s && freeOf "-" s && freeOf "_" s.

(** None of the bytes [.], [-] and [_] occurs in [s]. *)
Definition typeSafe (s : string) : bool :=
  freeOf "." s && freeOf "-" s && freeOf "_" s.

(** A node of a kind that [getBasefromSimpleType] can answer from: a simple
    type that is neither list nor union, an attribute or an element. *)
Definition resolvable (n : Node) : bool :=
  match n with
  | SimpleTypeNode v => negb (SimpleType.List v) && negb (SimpleType.Union v)
  | AttributeNode _ | ElementNode _ => true
  | _ => false
  end.

(** Every line feed of [s] ends the text or is followed by [prefix] and a
    blank: each line after the first is a comment line. *)
Fixpoint commentedLines (prefix : string) (s : string) : bool :=
  match s with
  | "" => true
  | String b s' =>
      (if bool_decide (b = "010"%char)
       then bool_decide (s' = "") || String.prefix (prefix +:+ " ") s'
       else true)
      && commentedLines prefix s'
  end.

(** The set of the schema names of the nodes [nodes]. *)
Definition nodeNames (nodes : list Node) : gset string :=
  list_to_set (omap nodeName nodes).

(** A node whose emission ranges over at most one map entry: any node but a
    union simple type with two or more member types. *)
Definition singleOrder (n : Node) : bool :=
  match n with
  | SimpleTypeNode v =>
      negb (SimpleType.Union v)
      || bool_decide (size (SimpleType.MemberTypes v) ≤ 1)
  | _ => true
  end.

(** [piece] occurs in [text]. *)
Definition holdsText (text piece : string) : Prop :=
  ∃ pre post, text = pre +:+ piece +:+ post.

(** A sink on which the file cannot be created. *)
Definition readOnlyDisk : Sink :=
  {| os_Create := λ _, Some "permission denied"; file_Write := λ _ _, None |}.

(** An attribute with its plurality flag set to [b]. *)
Definition setAttributePlural (b : bool) (a : Attribute.t) : Attribute.t :=
  Attribute.Build (Attribute.Name a) (Attribute.Doc a) (Attribute.Type_ a) b.



(** * Properties *)

(** ** Byte strings *)

Section string_facts.
Implicit Types (s t u : string) (b c : ascii).

Lemma app_String b s t : String b s +:+ t = String b (s +:+ t).
Proof. reflexivity. Qed.

Lemma app_empty_l s : "" +:+ s = s.
Proof. reflexivity. Qed.

Lemma app_empty_r s : s +:+ "" = s.
Proof. induction s as [|b s IH]; [done|]. by rewrite app_String IH. Qed.

Lemma string_app_assoc s t u : (s +:+ t) +:+ u = s +:+ (t +:+ u).
Proof. induction s as [|b s IH]; [done|]. by rewrite !app_String IH. Qed.

Lemma app_eq_empty s t : s +:+ t = "" ↔ s = "" ∧ t = "".
Proof.
  split; [|by intros [-> ->]].
  destruct s; [by rewrite app_empty_l; intros ->|].
  rewrite app_String. discriminate.
Qed.

Lemma ReplaceAll_app s t c new :
  GoStr.ReplaceAll (s +:+ t) c new
  = GoStr.ReplaceAll s c new +:+ GoStr.ReplaceAll t c new.
Proof.
  induction s as [|b s IH]; [done|].
  rewrite app_String /=. case_bool_decide.
  - by rewrite IH string_app_assoc.
  - by rewrite IH app_String.
Qed.

(** Upper-casing a byte yields nothing but underscores only from an
    underscore. *)
Lemma ToUpper1_underscores b :
  GoStr.ReplaceAll (GoStr.ToUpper1 b) "_" "" = "" ↔ b = "_"%char.
Proof.
  destruct b as [[] [] [] [] [] [] [] []]; vm_compute; split; done.
Qed.

Lemma MakeFirstUpperCase_cons b s :
  MakeFirstUpperCase (String b s) = GoStr.ToUpper1 b +:+ s.
Proof. destruct s; [|done]. by rewrite /= app_empty_r. Qed.

(** [MakeFirstUpperCase] neither adds nor removes a byte that is not an
    underscore. *)
Lemma MakeFirstUpperCase_underscores s :
  GoStr.ReplaceAll (MakeFirstUpperCase s) "_" "" = ""
  ↔ GoStr.ReplaceAll s "_" "" = "".
Proof.
  destruct s as [|b s]; [done|].
  rewrite MakeFirstUpperCase_cons ReplaceAll_app app_eq_empty
    ToUpper1_underscores /=.
  case_bool_decide as Hb.
  - rewrite app_empty_l. tauto.
  - split; [tauto|discriminate].
Qed.
End string_facts.

(** ** The embedding on small inputs *)

Example MakeFirstUpperCase_word : MakeFirstUpperCase "order" = "Order".
Proof. reflexivity. Qed.

Example MakeFirstUpperCase_invalid_byte :
  MakeFirstUpperCase (String "200" "x") = GoStr.RuneError +:+ "x".
Proof. reflexivity. Qed.

Example ToSnakeCase_words :
  ToSnakeCase forwardRuntime "CustomerId9Z-x" = "customer_id9_z_x".
Proof. reflexivity. Qed.

Example trimNSPrefix_cases :
  trimNSPrefix "xs:int" = "int" ∧ trimNSPrefix "a:b:c" = "a:b:c"
  ∧ trimNSPrefix "int" = "int" ∧ getNSPrefix "xs:int" = "xs".
Proof. by vm_compute. Qed.

Example genRubyFieldName_segments :
  genRubyFieldName "xs:purchase_order.line-item" = "XsPurchaseorderLineitem".
Proof. by vm_compute. Qed.

Example genFieldComment_doc :
  genFieldComment "Order" ("first" +:+ LF +:+ TAB +:+ "second") "#"
  = CR +:+ LF +:+ "# Order is first" +:+ CR +:+ LF +:+ "# second" +:+ CR +:+ LF.
Proof. by vm_compute. Qed.

(** Scenario 3 of the specification: a repeated element of a complex type. *)
Example RubyComplexType_Order :
  let Order :=
    ComplexType.Build "Order" "" [] [] []
      [Element.Build "item" "" "Product" true] in
  Field (RubyComplexType forwardRuntime Order (newGenerator "out" []))
  = TAB +:+ CR +:+ LF +:+ "# Order ..." +:+ CR +:+ LF +:+ TAB
    +:+ "class Order" +:+ LF +:+ TAB +:+ TAB +:+ "include XmlMapper" +:+ LF
    +:+ LF +:+ TAB +:+ TAB +:+ "has_many :item, 'OTA::Product', tag: 'item'"
    +:+ LF +:+ TAB +:+ "end" +:+ LF.
Proof. by vm_compute. Qed.

(** ** The field type is never empty *)

Lemma rubyBuildinType_nonempty name :
  is_Some (rubyBuildinType !! name) → name ≠ "".
Proof. intros [b Hb] ->. vm_compute in Hb. discriminate. Qed.

(** C10: [genRubyFieldType] never returns the empty string; on a name that
    is no Ruby built-in spelling and whose normalisation is empty, the empty
    name among them, it returns the default ["String"]. *)
Theorem genRubyFieldType_never_empty (name : string) :
  genRubyFieldType name ≠ ""
  ∧ (rubyBuildinType !! name = None → normalization name = "" →
     genRubyFieldType name = "String")
  ∧ genRubyFieldType "" = "String".
Proof.
  split_and!.
  - rewrite /genRubyFieldType.
    destruct (rubyBuildinType !! name) eqn:Hb.
    + apply rubyBuildinType_nonempty. by rewrite Hb.
    + cbv zeta. case_bool_decide; [done|discriminate].
  - intros Hb Hnorm. rewrite /genRubyFieldType Hb. cbv zeta.
    apply MakeFirstUpperCase_underscores in Hnorm.
    by rewrite bool_decide_eq_false_2; [intros []|].
  - by vm_compute.
Qed.

Lemma genRubyFieldType_never_empty_witness :
  genRubyFieldType "_.-" = "String".
Proof.
  apply (genRubyFieldType_never_empty "_.-"); by vm_compute.
Defined.

(** ** The built-in type table *)

Lemma BuildInTypes_row value row :
  BuildInTypes !! value = Some row → (value, row) ∈ BuildInTypes_rows.
Proof. apply elem_of_list_to_map_2. Qed.

Lemma BuildInTypes_rows_length :
  Forall (λ r, length r.2 = 6) BuildInTypes_rows.
Proof. by repeat constructor. Qed.

Lemma BuildInTypes_length value row :
  BuildInTypes !! value = Some row → length row = 6.
Proof.
  intros Hrow%BuildInTypes_row.
  by apply (proj1 (Forall_forall _ _) BuildInTypes_rows_length) in Hrow.
Qed.

Lemma supportLang_bound lang i : supportLang !! lang = Some i → i ≤ 5.
Proof.
  intros Hi%elem_of_list_to_map_2.
  assert (Forall (λ r, r.2 ≤ 5) supportLang_rows) as Hall
    by (repeat constructor; simpl; lia).
  by apply (proj1 (Forall_forall _ _) Hall) in Hi.
Qed.

Lemma supportLang_unknown lang :
  lang ∉ languages → supportLang !! lang = None.
Proof. intros Hl. by apply not_elem_of_list_to_map_1. Qed.

(** C9: a language outside the six supported names is not reported as
    unknown: it reads column 0, so a recognised XSD name yields the Go
    spelling with [ok = true].  The indexing never panics: every row has six
    entries and every language index is at most five. *)
Theorem getBuildInTypeByLang_unknown_language (lang : string) :
  lang ∉ languages →
  (∀ value row, BuildInTypes !! value = Some row →
     ∃ goType, row !! 0 = Some goType
       ∧ getBuildInTypeByLang value lang = Some (goType, true)
       ∧ getBuildInTypeByLang value "Go" = Some (goType, true))
  ∧ (∀ value row, BuildInTypes !! value = Some row → length row = 6)
  ∧ (∀ l i, supportLang !! l = Some i → i ≤ 5)
  ∧ (∀ value l, getBuildInTypeByLang value l ≠ None).
Proof.
  intros Hlang. split_and!.
  - intros value row Hrow.
    pose proof (BuildInTypes_length _ _ Hrow) as Hlen.
    destruct row as [|goType row]; [done|]. exists goType.
    rewrite /getBuildInTypeByLang Hrow (supportLang_unknown _ Hlang).
    done.
  - apply BuildInTypes_length.
  - apply supportLang_bound.
  - intros value l. rewrite /getBuildInTypeByLang.
    destruct (BuildInTypes !! value) as [row|] eqn:Hrow; [|done].
    pose proof (BuildInTypes_length _ _ Hrow) as Hlen.
    destruct (supportLang !! l) as [i|] eqn:Hi; simpl.
    + apply supportLang_bound in Hi.
      destruct (lookup_lt_is_Some_2 row i) as [t ->]; [lia|done].
    + destruct row; done.
Qed.

Lemma getBuildInTypeByLang_unknown_language_witness :
  ∃ goType, ["int"; "number"; "int"; "Integer"; "i32"; "Integer"] !! 0 = Some goType
    ∧ getBuildInTypeByLang "int" "Python" = Some (goType, true)
    ∧ getBuildInTypeByLang "int" "Go" = Some (goType, true).
Proof.
  refine (proj1 (getBuildInTypeByLang_unknown_language "Python" _) "int" _ _).
  - compute_done.
  - by vm_compute.
Defined.

(** ** The type resolver scans once and stops at the first match *)

Lemma getBasefromSimpleType_cons name ele rest :
  getBasefromSimpleType name (ele :: rest)
  = default (getBasefromSimpleType name rest) (resolves name ele).
Proof.
  destruct ele as [|v|v|v|v|v|v|]; simpl; try done.
  - by destruct (negb _ && negb _ && bool_decide _).
  - by case_bool_decide.
  - by case_bool_decide.
Qed.

Lemma getBasefromSimpleType_skip name pre rest :
  Forall (λ e, resolves name e = None) pre →
  getBasefromSimpleType name (pre ++ rest) = getBasefromSimpleType name rest.
Proof.
  induction 1 as [|ele pre Hele _ IH]; [done|].
  by rewrite -app_comm_cons getBasefromSimpleType_cons Hele.
Qed.

(** C3, as the code has it: the answer is that of the first node, in tree
    order, that is a plain simple type, an attribute or an element of the
    given name, whatever its kind; without such a node the name comes back
    unchanged. *)
Theorem getBasefromSimpleType_first_match (name : string) (tree : list Node) :
  (∀ pre ele post t,
     tree = pre ++ ele :: post →
     Forall (λ e, resolves name e = None) pre →
     resolves name ele = Some t →
     getBasefromSimpleType name tree = t)
  ∧ (Forall (λ e, resolves name e = None) tree →
     getBasefromSimpleType name tree = name).
Proof.
  split.
  - intros pre ele post t -> Hpre Hele.
    by rewrite getBasefromSimpleType_skip // getBasefromSimpleType_cons Hele.
  - intros Hall.
    rewrite -(app_nil_r tree). by rewrite getBasefromSimpleType_skip.
Qed.

Lemma getBasefromSimpleType_first_match_witness :
  getBasefromSimpleType "Code"
    [OtherNode; ElementNode Code_element; SimpleTypeNode Code_simpleType]
  = "string".
Proof.
  refine (proj1 (getBasefromSimpleType_first_match "Code" _)
            [OtherNode] (ElementNode Code_element)
            [SimpleTypeNode Code_simpleType] "string" _ _ _).
  - reflexivity.
  - by repeat constructor.
  - by vm_compute.
Defined.

(** C3, as stated, fails: a plain simple type [Code] with base [int] is in
    the tree, yet the element of the same name, met first, decides. *)
Lemma simpleType_precedence_counterexample :
  let tree := [ElementNode Code_element; SimpleTypeNode Code_simpleType] in
  SimpleTypeNode Code_simpleType ∈ tree
  ∧ SimpleType.List Code_simpleType = false
  ∧ SimpleType.Union Code_simpleType = false
  ∧ SimpleType.Name Code_simpleType = "Code"
  ∧ getBasefromSimpleType "Code" tree ≠ SimpleType.Base Code_simpleType.
Proof.
  split_and!; try done.
  apply list_elem_of_further, list_elem_of_here.
Qed.

(** ** The output assembler *)

(** C1 fails on the code: when the file is created and the write fails,
    [GenRuby] still returns the nil error. *)
Theorem GenRuby_drops_write_error (rt : GoRuntime) (gen : CodeGenerator) :
  let gen' := (GenRuby rt fullDisk gen).1 in
  file_Write fullDisk (File gen' +:+ ".rb") (source gen')
  = Some "no space left on device"
  ∧ (GenRuby rt fullDisk gen).2 = None.
Proof. done. Qed.

(** ** The sample runtimes are admissible *)

Lemma forwardRuntime_admissible : admissible forwardRuntime.
Proof. by intros name m. Qed.

Lemma backwardRuntime_admissible : admissible backwardRuntime.
Proof. intros name m. apply reverse_Permutation. Qed.

(** ** Determinism *)

(** C2 fails on the code: the members of a union are emitted in the order in
    which the runtime ranges over the map, so two runs over the same tree can
    write different text. *)
Theorem GenRuby_union_order (file : string) :
  let gen := newGenerator file [SimpleTypeNode Currency] in
  admissible forwardRuntime ∧ admissible backwardRuntime
  ∧ SimpleType.Union Currency = true
  ∧ size (SimpleType.MemberTypes Currency) = 2
  ∧ source (GenRuby forwardRuntime goodDisk gen).1
    ≠ source (GenRuby backwardRuntime goodDisk gen).1.
Proof.
  split_and!;
    [apply forwardRuntime_admissible|apply backwardRuntime_admissible|done..|].
  by vm_compute.
Qed.

(** ** Built-in types *)

Lemma Ruby_column_fixed :
  Forall (λ r, ∀ t, r.2 !! 5 = Some t → genRubyFieldType t = t)
    BuildInTypes_rows.
Proof. repeat constructor; by intros t [= <-]. Qed.

(** C5, as stated, fails twice over: the table maps [positiveInteger] to
    [Integer] for Ruby, but the computed field type is [PositiveInteger]; and
    a reference to the built-in [string] resolves through the tree scan to
    the base of the user's node of that name. *)
Lemma builtin_precedence_counterexample :
  getBuildInTypeByLang "positiveInteger" "Ruby" = Some ("Integer", true)
  ∧ resolvedType (newGenerator "" []) "positiveInteger" = "PositiveInteger"
  ∧ getBuildInTypeByLang "string" "Ruby" = Some ("String", true)
  ∧ resolvedType (newGenerator "" [SimpleTypeNode string_simpleType]) "string"
    = "Foo".
Proof. by vm_compute. Qed.

(** ** Plurality *)

Lemma foldl_ext_in {A B} (f g : A → B → A) (l : list B) (a : A) :
  (∀ a b, f a b = g a b) → foldl f a l = foldl g a l.
Proof.
  intros Hfg. revert a. induction l as [|b l IH]; intros a; [done|].
  by rewrite /= Hfg IH.
Qed.

Lemma groupMembers_plurality rt gen content (h : Group.t → bool) groups :
  groupMembers rt gen content ((λ g, setGroupPlural (h g) g) <$> groups)
  = groupMembers rt gen content groups.
Proof.
  rewrite /groupMembers foldl_fmap. apply foldl_ext_in.
  intros c g. by destruct (h g), (Group.Plural g).
Qed.

(** C7 fails on the code for the members of a group and for the group
    references of a complex type: whatever their plurality flags, the
    routines write the same text.  For the group [Items] with a repeated
    member the text is that of the singular member. *)
Theorem group_members_ignore_plurality (rt : GoRuntime) (gen : CodeGenerator) :
  (∀ (v : Group.t) (f : Element.t → bool) (h : Group.t → bool),
     RubyGroup rt
       (Group.Build (Group.Name v) (Group.Doc v)
          ((λ e, setElementPlural (f e) e) <$> Group.Elements v)
          ((λ g, setGroupPlural (h g) g) <$> Group.Groups v)
          (Group.Plural v) (Group.Ref v)) gen
     = RubyGroup rt v gen)
  ∧ (∀ (v : ComplexType.t) (h : Group.t → bool),
       RubyComplexType rt
         (ComplexType.Build (ComplexType.Name v) (ComplexType.Doc v)
            (ComplexType.AttributeGroup v) (ComplexType.Attributes v)
            ((λ g, setGroupPlural (h g) g) <$> ComplexType.Groups v)
            (ComplexType.Elements v)) gen
       = RubyComplexType rt v gen)
  ∧ Field (RubyGroup forwardRuntime (Items true) (newGenerator "" []))
    = Field (RubyGroup forwardRuntime (Items false) (newGenerator "" [])).
Proof.
  split_and!.
  - intros v f h. rewrite /RubyGroup /=.
    destruct (StructAST gen !! Group.Name v); [done|].
    destruct (openBody _ _ _) as [gen1 content].
    rewrite groupMembers_plurality foldl_fmap.
    rewrite (foldl_ext_in _
      (λ content element,
         content +:+ fmtGroupMember
           (ToSnakeCase rt (genRubyFieldName (Element.Name element)))
           (if Element.Plural element then "" else "")
           (resolvedType gen1 (Element.Type_ element)))); [|done].
    intros c e. simpl. by destruct (f e), (Element.Plural e).
  - intros v h. rewrite /RubyComplexType /=.
    destruct (StructAST gen !! ComplexType.Name v); [done|].
    destruct (openBody _ _ _) as [gen1 content].
    by rewrite groupMembers_plurality.
  - by vm_compute.
Qed.

(** ** The emit-once cache *)

Section cache.
Context (rt : GoRuntime).
Implicit Types (gen : CodeGenerator) (n : Node) (k : string).

Lemma cached_store gen name content :
  cached (store gen name content) name = content.
Proof. by rewrite /cached /= lookup_insert_eq. Qed.

Lemma foldl_append_init {A} (f : string → A → string) init (l : list A) :
  (∀ c x, f c x = c +:+ f "" x) →
  foldl f init l = init +:+ foldl f "" l.
Proof.
  intros Hf. revert init. induction l as [|x l IH]; intros init.
  - by rewrite /= app_empty_r.
  - rewrite /= IH (IH (f "" x)) (Hf init x). by rewrite string_app_assoc.
Qed.

(** A routine that finds its name in the cache changes nothing. *)
Lemma dispatch_cached gen n k :
  nodeName n = Some k → is_Some (StructAST gen !! k) →
  dispatch rt gen n = gen.
Proof.
  intros Hn [c Hc].
  destruct n as [|v|v|v|v|v|v|]; simplify_eq/=.
  - rewrite /RubySimpleType Hc. by repeat case_match.
  - by rewrite /RubyComplexType Hc.
  - by rewrite /RubyGroup Hc.
  - by rewrite /RubyAttributeGroup Hc.
  - by rewrite /RubyElement Hc.
  - by rewrite /RubyAttribute Hc.
Qed.

Lemma dispatch_unnamed gen n : nodeName n = None → dispatch rt gen n = gen.
Proof. by destruct n. Qed.

(** A routine that does not find its name emits once; the text depends on
    the node and the tree only. *)
Lemma dispatch_fresh gen n k :
  nodeName n = Some k → StructAST gen !! k = None →
  emitted gen (dispatch rt gen n) k (declaration rt (ProtoTree gen) n).
Proof.
  intros Hn Hk. rewrite /declaration.
  destruct n as [|v|v|v|v|v|v|]; simplify_eq/=.
  - rewrite /RubySimpleType Hk lookup_empty /openBody.
    repeat case_match; simplify_eq/=; rewrite !cached_store;
      by eexists.
  - rewrite /RubyComplexType Hk lookup_empty /openBody.
    case_bool_decide; simpl; rewrite !cached_store; by eexists.
  - rewrite /RubyGroup Hk lookup_empty /openBody.
    case_bool_decide; simpl; rewrite !cached_store; by eexists.
  - rewrite /RubyAttributeGroup Hk lookup_empty /openBody.
    case_bool_decide; simpl; rewrite !cached_store; by eexists.
  - rewrite /RubyElement Hk lookup_empty /= !cached_store. by eexists.
  - rewrite /RubyAttribute Hk lookup_empty /= !cached_store. by eexists.
Qed.
End cache.

Section pass_facts.
Context (rt : GoRuntime).
Implicit Types (gen : CodeGenerator) (n : Node) (k : string).

Lemma pass_cons gen n nodes :
  pass rt gen (n :: nodes) = pass rt (dispatch rt gen n) nodes.
Proof. done. Qed.

Lemma pass_app gen nodes1 nodes2 :
  pass rt gen (nodes1 ++ nodes2) = pass rt (pass rt gen nodes1) nodes2.
Proof. apply foldl_app. Qed.

(** The three ways one turn of the loop can go. *)
Lemma dispatch_cases gen n :
  dispatch rt gen n = gen
  ∨ ∃ k, nodeName n = Some k ∧ StructAST gen !! k = None
         ∧ emitted gen (dispatch rt gen n) k (declaration rt (ProtoTree gen) n).
Proof.
  destruct (nodeName n) as [k|] eqn:Hn; [|left; by apply dispatch_unnamed].
  destruct (StructAST gen !! k) as [c|] eqn:Hk.
  - left. by eapply dispatch_cached.
  - right. exists k. eauto using dispatch_fresh.
Qed.

Lemma dispatch_ProtoTree gen n :
  ProtoTree (dispatch rt gen n) = ProtoTree gen.
Proof.
  destruct (dispatch_cases gen n) as [->|(k & _ & _ & c & _ & _ & HT & _)];
    done.
Qed.

(** A cached entry is never overwritten. *)
Lemma dispatch_keeps gen n k c :
  StructAST gen !! k = Some c → StructAST (dispatch rt gen n) !! k = Some c.
Proof.
  intros Hk.
  destruct (dispatch_cases gen n) as [->|(k' & _ & Hk' & c' & -> & _)];
    [done|].
  rewrite lookup_insert_ne //. by intros ->; simplify_eq.
Qed.

Lemma pass_ProtoTree gen nodes : ProtoTree (pass rt gen nodes) = ProtoTree gen.
Proof.
  revert gen. induction nodes as [|n nodes IH]; intros gen; [done|].
  by rewrite pass_cons IH dispatch_ProtoTree.
Qed.

Lemma dispatch_File gen n : File (dispatch rt gen n) = File gen.
Proof.
  by destruct (dispatch_cases gen n) as [->|(k & _ & _ & c & _ & _ & _ & ?)].
Qed.

Lemma pass_File gen nodes : File (pass rt gen nodes) = File gen.
Proof.
  revert gen. induction nodes as [|n nodes IH]; intros gen; [done|].
  by rewrite pass_cons IH dispatch_File.
Qed.

(** A failure to create the file is returned as it is. *)
Lemma GenRuby_returns_create_error sink gen e :
  os_Create sink (File gen +:+ ".rb") = Some e →
  (GenRuby rt sink gen).2 = Some e.
Proof. intros He. by rewrite /GenRuby pass_File He. Qed.

Lemma pass_keeps gen nodes k c :
  StructAST gen !! k = Some c → StructAST (pass rt gen nodes) !! k = Some c.
Proof.
  revert gen. induction nodes as [|n nodes IH]; intros gen Hk; [done|].
  rewrite pass_cons. by apply IH, dispatch_keeps.
Qed.

(** After its routine has run, a node's name is in the cache. *)
Lemma dispatch_caches gen n k :
  nodeName n = Some k → is_Some (StructAST (dispatch rt gen n) !! k).
Proof.
  intros Hn. destruct (StructAST gen !! k) as [c|] eqn:Hk.
  - rewrite (dispatch_cached rt gen n k) // Hk; eauto.
  - destruct (dispatch_fresh rt gen n k Hn Hk) as (c & -> & _).
    rewrite lookup_insert_eq. eauto.
Qed.



(** The accumulator after a pass: one declaration for each emitting node,
    in tree order. *)
Lemma pass_Field gen nodes :
  Field (pass rt gen nodes)
  = Field gen
    +:+ joinAll (declaration rt (ProtoTree gen)
                   <$> emitting (dom (StructAST gen)) nodes).
Proof.
  revert gen. induction nodes as [|n nodes IH]; intros gen.
  { by rewrite /= app_empty_r. }
  rewrite pass_cons IH dispatch_ProtoTree /=.
  destruct (nodeName n) as [k|] eqn:Hn; [|by rewrite dispatch_unnamed].
  case_bool_decide as Hseen.
  - apply elem_of_dom in Hseen. by rewrite (dispatch_cached rt gen n k).
  - apply not_elem_of_dom in Hseen.
    destruct (dispatch_fresh rt gen n k Hn Hseen) as (c & -> & -> & _).
    by rewrite dom_insert_L /= string_app_assoc.
Qed.
End pass_facts.

(** ** Serialization tags *)

Section carries_facts.
Context (name : string).
Implicit Types (s a b : string).

Lemma carries_tag : carries name (fmtTag name).
Proof. exists "", "". by rewrite app_empty_r. Qed.

Lemma carries_app_l a s : carries name s → carries name (a +:+ s).
Proof.
  intros (pre & post & ->). exists (a +:+ pre), post.
  by rewrite string_app_assoc.
Qed.

Lemma carries_app_r s b : carries name s → carries name (s +:+ b).
Proof.
  intros (pre & post & ->). exists pre, (post +:+ b).
  by rewrite !string_app_assoc.
Qed.

Lemma carries_foldl {A} (f : string → A → string) init (l : list A) :
  (∀ c x, f c x = c +:+ f "" x) →
  carries name init → carries name (foldl f init l).
Proof.
  intros Hf Hinit. rewrite foldl_append_init //. by apply carries_app_r.
Qed.

Lemma carries_groupMembers rt gen init groups :
  carries name init → carries name (groupMembers rt gen init groups).
Proof. by apply carries_foldl. Qed.
End carries_facts.

Create HintDb carries.
#[local] Hint Resolve carries_tag carries_app_l carries_app_r
  carries_groupMembers : carries.
#[local] Hint Extern 2 (carries _ (foldl _ _ _)) =>
  apply carries_foldl;
    [first [by intros ? ? | by intros ? [? ?]]|] : carries.

(** C4, as stated, fails for a top-level element: the identifier differs
    from the raw name, and the declaration does not hold the raw name at
    all. *)
Lemma element_tag_counterexample :
  let gen := RubyElement customer_id (newGenerator "" [ElementNode customer_id]) in
  genRubyFieldName "customer-id" ≠ "customer-id"
  ∧ Field gen
    = TAB +:+ CR +:+ LF +:+ "# Customerid ..." +:+ CR +:+ LF +:+ TAB
      +:+ "class Customerid < string; end" +:+ LF
  ∧ GoStr.Contains (Field gen) "customer-id" = false
  ∧ ImportEncodingXML gen = false.
Proof. by vm_compute. Qed.

(** * Further properties of the code *)

Set Warnings "-clear-no-such-hyp".

(** ** Splitting at a byte *)

Section split_facts.
Implicit Types (s t : string) (b c : ascii).

Lemma allBytes_app P s t : allBytes P (s +:+ t) = allBytes P s && allBytes P t.
Proof.
  induction s as [|b s IH]; [done|].
  by rewrite app_String /= IH andb_assoc.
Qed.

Lemma freeOf_count c s : freeOf c s = true ↔ countByte c s = 0.
Proof.
  induction s as [|b s IH]; [done|].
  rewrite /freeOf /= -/(freeOf c s). case_bool_decide; simpl; [done|].
  by rewrite IH.
Qed.

Lemma Split_cons s c : ∃ w ws, GoStr.Split s c = w :: ws.
Proof.
  induction s as [|b s (w & ws & IH)]; [by eexists _, _|].
  simpl. case_bool_decide; [by eexists _, _|].
  rewrite IH. by eexists _, _.
Qed.

Lemma Split_length s c : length (GoStr.Split s c) = S (countByte c s).
Proof.
  induction s as [|b s IH]; [done|].
  simpl. case_bool_decide; simpl; [by rewrite IH|].
  destruct (Split_cons s c) as (w & ws & Hs). rewrite Hs in IH |- *.
  by rewrite /= -IH.
Qed.

Lemma Split_join s c : joinWith c (GoStr.Split s c) = s.
Proof.
  induction s as [|b s IH]; [done|].
  simpl. destruct (Split_cons s c) as (w & ws & Hs). rewrite Hs in IH |- *.
  case_bool_decide as Hb.
  - subst b.
    change (joinWith c ("" :: w :: ws))
      with ("" +:+ String c (joinWith c (w :: ws))).
    by rewrite IH.
  - destruct ws; simpl in *; by rewrite -IH.
Qed.

Lemma Split_free s c : Forall (λ w, freeOf c w = true) (GoStr.Split s c).
Proof.
  induction s as [|b s IH]; [by repeat constructor|].
  simpl. case_bool_decide as Hb; [by constructor|].
  destruct (Split_cons s c) as (w & ws & Hs). rewrite Hs in IH |- *.
  apply Forall_cons in IH as [Hw Hws]. constructor; [|done].
  by rewrite /freeOf /= bool_decide_eq_false_2.
Qed.

(** A string with one separator splits in two. *)
Lemma Split_two s c :
  countByte c s = 1 →
  ∃ w1 w2, GoStr.Split s c = [w1; w2] ∧ s = w1 +:+ String c w2
           ∧ freeOf c w1 = true ∧ freeOf c w2 = true.
Proof.
  intros Hc. pose proof (Split_length s c) as Hlen.
  pose proof (Split_join s c) as Hjoin. pose proof (Split_free s c) as Hfree.
  rewrite Hc in Hlen.
  destruct (GoStr.Split s c) as [|w1 [|w2 [|w3 ws]]]; simplify_eq/=.
  apply Forall_cons in Hfree as [H1 [H2 _]%Forall_cons].
  by exists w1, w2.
Qed.
End split_facts.

(** ** Namespace prefixes *)

Lemma trimNSPrefix_other str :
  countByte ":" str ≠ 1 → trimNSPrefix str = str ∧ getNSPrefix str = "".
Proof.
  intros Hc. pose proof (Split_length str ":") as Hlen.
  rewrite /getNSPrefix /trimNSPrefix.
  destruct (GoStr.Split str ":") as [|w1 [|w2 [|w3 ws]]]; simplify_eq/=; done.
Qed.

(** X1: a name with exactly one colon is its prefix, the colon and its local
    part; [getNSPrefix] and [trimNSPrefix] return the two sides, neither of
    which holds a colon. *)
Theorem nsPrefix_decomposition (str : string) :
  countByte ":" str = 1 →
  str = getNSPrefix str +:+ ":" +:+ trimNSPrefix str
  ∧ freeOf ":" (getNSPrefix str) = true
  ∧ freeOf ":" (trimNSPrefix str) = true.
Proof.
  intros (w1 & w2 & Hs & Heq & H1 & H2)%Split_two.
  by rewrite /getNSPrefix /trimNSPrefix Hs.
Qed.

Lemma nsPrefix_decomposition_witness :
  "xs:int" = getNSPrefix "xs:int" +:+ ":" +:+ trimNSPrefix "xs:int"
  ∧ freeOf ":" (getNSPrefix "xs:int") = true
  ∧ freeOf ":" (trimNSPrefix "xs:int") = true.
Proof. apply (nsPrefix_decomposition "xs:int"). reflexivity. Defined.

(** X2: a name without a colon, or with two or more, has no prefix:
    [trimNSPrefix] returns it unchanged and [getNSPrefix] returns the empty
    string. *)
Theorem nsPrefix_absent (str : string) :
  countByte ":" str ≠ 1 →
  trimNSPrefix str = str ∧ getNSPrefix str = "".
Proof. apply trimNSPrefix_other. Qed.

Lemma nsPrefix_absent_witness :
  trimNSPrefix "a:b:c" = "a:b:c" ∧ getNSPrefix "a:b:c" = "".
Proof. apply (nsPrefix_absent "a:b:c"). by vm_compute. Defined.

(** X3: stripping the prefix twice is stripping it once. *)
Theorem trimNSPrefix_idempotent (str : string) :
  trimNSPrefix (trimNSPrefix str) = trimNSPrefix str.
Proof.
  destruct (decide (countByte ":" str = 1)) as [Hc|Hc].
  - destruct (trimNSPrefix_other (trimNSPrefix str)) as [Ht _]; [|done].
    destruct (Split_two _ _ Hc) as (w1 & w2 & Hs & _ & _ & H2).
    rewrite /trimNSPrefix Hs. apply freeOf_count in H2. by rewrite H2.
  - destruct (trimNSPrefix_other str Hc) as [Ht _]. by rewrite !Ht.
Qed.

(** ** Case conversion *)

Section case_facts.
Implicit Types (s t : string) (b c : ascii).

Lemma upper_byte_ascii b :
  GoStr.is_ascii b = true →
  GoStr.ToUpper1 b = String (GoStr.upper_byte b) ""
  ∧ GoStr.is_ascii (GoStr.upper_byte b) = true
  ∧ GoStr.upper_byte (GoStr.upper_byte b) = GoStr.upper_byte b.
Proof. destruct b as [[] [] [] [] [] [] [] []]; by vm_compute. Qed.

Lemma MakeFirstUpperCase_ascii b s :
  GoStr.is_ascii b = true →
  MakeFirstUpperCase (String b s) = String (GoStr.upper_byte b) s.
Proof.
  intros (Hup & _)%upper_byte_ascii. by rewrite MakeFirstUpperCase_cons Hup.
Qed.

Lemma MakeFirstUpperCase_twice s :
  asciiFirst s = true →
  MakeFirstUpperCase (MakeFirstUpperCase s) = MakeFirstUpperCase s.
Proof.
  destruct s as [|b s]; [done|]. intros Hb. simpl in Hb.
  destruct (upper_byte_ascii b Hb) as (_ & Hup & Hidem).
  by rewrite !MakeFirstUpperCase_ascii // Hidem.
Qed.

Lemma all_ascii_allBytes s : GoStr.all_ascii s = allBytes GoStr.is_ascii s.
Proof. induction s as [|b s IH]; [done|]. by rewrite /= IH. Qed.

Lemma allBytes_impl (P Q : ascii → bool) s :
  (∀ b, P b = true → Q b = true) → allBytes P s = true → allBytes Q s = true.
Proof.
  intros HPQ. induction s as [|b s IH]; [done|].
  simpl. intros [Hb Hs]%andb_prop. by rewrite (HPQ b Hb) IH.
Qed.

Lemma allBytes_map (P : ascii → bool) (f : ascii → ascii) s :
  allBytes P (GoStr.map_bytes f s) = allBytes (λ b, P (f b)) s.
Proof. induction s as [|b s IH]; [done|]. by rewrite /= IH. Qed.

Lemma map_bytes_id (f : ascii → ascii) s :
  allBytes (λ b, bool_decide (f b = b)) s = true → GoStr.map_bytes f s = s.
Proof.
  induction s as [|b s IH]; [done|].
  simpl. intros [Hb%bool_decide_eq_true_1 Hs]%andb_prop. by rewrite Hb IH.
Qed.

Lemma ReplaceAll_allBytes (P : ascii → bool) s old new :
  allBytes P new = true → allBytes P s = true →
  allBytes P (GoStr.ReplaceAll s old new) = true.
Proof.
  intros Hnew. induction s as [|b s IH]; [done|].
  simpl. intros [Hb Hs]%andb_prop. case_bool_decide.
  - by rewrite allBytes_app Hnew IH.
  - by rewrite /= Hb IH.
Qed.

Lemma ReplaceAll_removes s old new :
  freeOf old new = true → freeOf old (GoStr.ReplaceAll s old new) = true.
Proof.
  intros Hnew. induction s as [|b s IH]; [done|].
  simpl. case_bool_decide as Hb.
  - by rewrite /freeOf allBytes_app -!/(freeOf _ _) Hnew IH.
  - by rewrite /freeOf /= -/(freeOf _ _) IH bool_decide_eq_false_2.
Qed.

Lemma ReplaceAll_absent s old new :
  freeOf old s = true → GoStr.ReplaceAll s old new = s.
Proof.
  induction s as [|b s IH]; [done|].
  rewrite /freeOf /= -/(freeOf _ _). intros [Hb Hs]%andb_prop.
  apply negb_true_iff, bool_decide_eq_false_1 in Hb.
  by rewrite bool_decide_eq_false_2 // IH.
Qed.

(** The two-step recursion of the expression replacement, as an induction
    principle. *)
Lemma string_pair_ind (Q : string → Prop) :
  Q "" → (∀ a, Q (String a "")) →
  (∀ a b t, Q t → Q (String b t) → Q (String a (String b t))) →
  ∀ s, Q s.
Proof.
  intros H0 H1 H2 s.
  assert (Q s ∧ ∀ a, Q (String a s)) as [? _]; [|done].
  induction s as [|b t [IH1 IH2]]; [by split|].
  split; [apply IH2|]. intros a. by apply H2.
Qed.

Lemma matchAllCap_Replace_allBytes (P : ascii → bool) s :
  P "_"%char = true → allBytes P s = true →
  allBytes P (GoStr.matchAllCap_Replace s) = true.
Proof.
  intros Hu. induction s as [|a|a b t IH1 IH2] using string_pair_ind;
    [done..|].
  intros Hs. change (allBytes P (String a (String b t)))
    with (P a && allBytes P (String b t)) in Hs.
  apply andb_prop in Hs as [Ha Hbt].
  change (GoStr.matchAllCap_Replace (String a (String b t)))
    with (if (GoStr.is_lower a || GoStr.is_digit a) && GoStr.is_upper b
          then String a (String "_" (String b (GoStr.matchAllCap_Replace t)))
          else String a (GoStr.matchAllCap_Replace (String b t))).
  destruct (_ && GoStr.is_upper b).
  - simpl in Hbt. apply andb_prop in Hbt as [Hb Ht].
    by rewrite /= Ha Hu Hb IH1.
  - by rewrite /= -/(GoStr.matchAllCap_Replace (String b t)) Ha IH2.
Qed.

Lemma matchAllCap_Replace_lower s :
  allBytes (λ b, negb (GoStr.is_upper b)) s = true →
  GoStr.matchAllCap_Replace s = s.
Proof.
  induction s as [|a|a b t IH1 IH2] using string_pair_ind; [done..|].
  intros Hs. change (allBytes ?P (String a (String b t)))
    with (P a && allBytes P (String b t)) in Hs.
  apply andb_prop in Hs as [Ha Hbt].
  change (GoStr.matchAllCap_Replace (String a (String b t)))
    with (if (GoStr.is_lower a || GoStr.is_digit a) && GoStr.is_upper b
          then String a (String "_" (String b (GoStr.matchAllCap_Replace t)))
          else String a (GoStr.matchAllCap_Replace (String b t))).
  pose proof Hbt as Hbt'. simpl in Hbt'.
  apply andb_prop in Hbt' as [Hb%negb_true_iff _].
  by rewrite Hb andb_false_r IH2.
Qed.

Lemma snakeByte_lower b :
  GoStr.is_ascii b = true → b ≠ "-"%char →
  snakeByte (GoStr.lower_byte b) = true.
Proof. destruct b as [[] [] [] [] [] [] [] []]; by vm_compute. Qed.

Lemma snakeByte_fixed b : snakeByte b = true → GoStr.lower_byte b = b.
Proof. destruct b as [[] [] [] [] [] [] [] []]; by vm_compute. Qed.

Lemma ToSnakeCase_snake rt input :
  GoStr.all_ascii input = true →
  allBytes snakeByte (ToSnakeCase rt input) = true.
Proof.
  rewrite all_ascii_allBytes. intros Hascii.
  set (r := GoStr.ReplaceAll (GoStr.matchAllCap_Replace input) "-" "_").
  assert (allBytes GoStr.is_ascii r = true) as Hr.
  { apply ReplaceAll_allBytes; [done|].
    by apply matchAllCap_Replace_allBytes. }
  assert (freeOf "-" r = true) as Hfree by by apply ReplaceAll_removes.
  rewrite /ToSnakeCase -/r /GoStr.ToLower all_ascii_allBytes Hr allBytes_map.
  clear -Hr Hfree. induction r as [|b r IH]; [done|].
  move: Hr Hfree. rewrite /freeOf /= -/(freeOf _ _).
  intros [Hb Hr]%andb_prop [Hn Hfree]%andb_prop.
  apply negb_true_iff, bool_decide_eq_false_1 in Hn.
  by rewrite snakeByte_lower // IH.
Qed.

Lemma ToSnakeCase_fixed rt s :
  allBytes snakeByte s = true → ToSnakeCase rt s = s.
Proof.
  intros Hs. rewrite /ToSnakeCase.
  rewrite matchAllCap_Replace_lower.
  { revert Hs. apply allBytes_impl. intros b.
    rewrite /snakeByte. by intros [[_ ?]%andb_prop _]%andb_prop. }
  rewrite ReplaceAll_absent.
  { revert Hs. apply allBytes_impl. intros b.
    rewrite /snakeByte. by intros [_ ?]%andb_prop. }
  rewrite /GoStr.ToLower all_ascii_allBytes.
  rewrite (allBytes_impl snakeByte GoStr.is_ascii) //.
  { intros b. rewrite /snakeByte. by intros [[? _]%andb_prop _]%andb_prop. }
  apply map_bytes_id. revert Hs. apply allBytes_impl.
  intros b Hb. rewrite snakeByte_fixed //. by apply bool_decide_eq_true_2.
Qed.
End case_facts.

(** X4: on a string that starts with an ASCII byte, [MakeFirstUpperCase]
    replaces just that byte by its upper case: the rest and the length are
    kept, and a second application changes nothing. *)
Theorem MakeFirstUpperCase_first_byte (b : ascii) (rest : string) :
  GoStr.is_ascii b = true →
  MakeFirstUpperCase (String b rest) = String (GoStr.upper_byte b) rest
  ∧ String.length (MakeFirstUpperCase (String b rest))
    = String.length (String b rest)
  ∧ MakeFirstUpperCase (MakeFirstUpperCase (String b rest))
    = MakeFirstUpperCase (String b rest).
Proof.
  intros Hb. rewrite MakeFirstUpperCase_twice // MakeFirstUpperCase_ascii //.
Qed.

Lemma MakeFirstUpperCase_first_byte_witness :
  MakeFirstUpperCase "order" = "Order"
  ∧ String.length (MakeFirstUpperCase "order") = String.length "order"
  ∧ MakeFirstUpperCase (MakeFirstUpperCase "order") = MakeFirstUpperCase "order".
Proof. apply (MakeFirstUpperCase_first_byte "o" "rder"). reflexivity. Defined.

(** X5: on ASCII input the result of [ToSnakeCase] is ASCII and holds no
    upper-case letter and no hyphen. *)
Theorem ToSnakeCase_lower_case (rt : GoRuntime) (input : string) :
  GoStr.all_ascii input = true →
  allBytes snakeByte (ToSnakeCase rt input) = true.
Proof. apply ToSnakeCase_snake. Qed.

Lemma ToSnakeCase_lower_case_witness :
  allBytes snakeByte (ToSnakeCase forwardRuntime "Customer-IdNo9Z") = true.
Proof. apply (ToSnakeCase_lower_case forwardRuntime). reflexivity. Defined.

(** X6: [ToSnakeCase] is idempotent on ASCII input: a name already in snake
    case comes back unchanged. *)
Theorem ToSnakeCase_idempotent (rt : GoRuntime) (input : string) :
  GoStr.all_ascii input = true →
  ToSnakeCase rt (ToSnakeCase rt input) = ToSnakeCase rt input.
Proof. intros Hascii. by apply ToSnakeCase_fixed, ToSnakeCase_snake. Qed.

Lemma ToSnakeCase_idempotent_witness :
  ToSnakeCase forwardRuntime (ToSnakeCase forwardRuntime "Customer-IdNo9Z")
  = ToSnakeCase forwardRuntime "Customer-IdNo9Z".
Proof. apply (ToSnakeCase_idempotent forwardRuntime). reflexivity. Defined.

(** ** Identifiers *)

Section identifier_facts.
Implicit Types (s t : string) (b c d : ascii) (P : ascii → bool).

Lemma appendUpperFirst_join acc (l : list string) :
  appendUpperFirst acc l = acc +:+ joinAll (MakeFirstUpperCase <$> l).
Proof.
  revert acc. induction l as [|w l IH]; intros acc.
  - by rewrite /= app_empty_r.
  - rewrite /appendUpperFirst /= -/(appendUpperFirst _ l) IH.
    by rewrite string_app_assoc.
Qed.

Lemma joinAll_allBytes P (l : list string) :
  Forall (λ w, allBytes P w = true) l → allBytes P (joinAll l) = true.
Proof.
  induction 1 as [|w l Hw _ IH]; [done|]. by rewrite /= allBytes_app Hw IH.
Qed.

Lemma Split_allBytes P s d :
  allBytes P s = true → Forall (λ w, allBytes P w = true) (GoStr.Split s d).
Proof.
  induction s as [|b s IH]; [by repeat constructor|].
  simpl. intros [Hb Hs]%andb_prop. specialize (IH Hs).
  case_bool_decide; [by constructor|].
  destruct (Split_cons s d) as (w & ws & Heq). rewrite Heq in IH |- *.
  apply Forall_cons in IH as [Hw Hws]. constructor; [|done].
  by rewrite /= Hb Hw.
Qed.

Lemma Split_absent s d : freeOf d s = true → GoStr.Split s d = [s].
Proof.
  induction s as [|b s IH]; [done|].
  rewrite /freeOf /= -/(freeOf _ _). intros [Hb Hs]%andb_prop.
  apply negb_true_iff, bool_decide_eq_false_1 in Hb.
  by rewrite bool_decide_eq_false_2 // IH.
Qed.

(** Upper-casing a byte brings in none of the four separators. *)
Lemma ToUpper1_free c b :
  c ∈ [":"; "."; "-"; "_"]%char → b ≠ c → freeOf c (GoStr.ToUpper1 b) = true.
Proof.
  intros Hc Hb.
  repeat (apply elem_of_cons in Hc as [->|Hc]; [|]);
    [..|by apply elem_of_nil in Hc];
    destruct b as [[] [] [] [] [] [] [] []]; by vm_compute.
Qed.

Lemma MakeFirstUpperCase_free c s :
  c ∈ [":"; "."; "-"; "_"]%char →
  freeOf c s = true → freeOf c (MakeFirstUpperCase s) = true.
Proof.
  intros Hc. destruct s as [|b s]; [done|].
  rewrite MakeFirstUpperCase_cons /freeOf allBytes_app /= -!/(freeOf _ _).
  intros [Hb Hs]%andb_prop.
  apply negb_true_iff, bool_decide_eq_false_1 in Hb.
  by rewrite ToUpper1_free.
Qed.

Lemma MakeFirstUpperCase_is_ascii s :
  allBytes GoStr.is_ascii s = true →
  allBytes GoStr.is_ascii (MakeFirstUpperCase s) = true.
Proof.
  destruct s as [|b s]; [done|]. intros Hs. simpl in Hs.
  apply andb_prop in Hs as [Hb Hs].
  destruct (upper_byte_ascii b Hb) as (_ & Hup & _).
  by rewrite MakeFirstUpperCase_ascii //= Hup Hs.
Qed.

(** The segments of [s] between the bytes [d], each with its first letter
    upper-cased and all put together again: [d] is gone, and any other
    separator absent from [s] stays absent. *)
Lemma upperFirst_segments_free c d s :
  c ∈ [":"; "."; "-"; "_"]%char →
  c = d ∨ freeOf c s = true →
  freeOf c (appendUpperFirst "" (GoStr.Split s d)) = true.
Proof.
  intros Hc Hfree. rewrite appendUpperFirst_join app_empty_l.
  apply joinAll_allBytes, Forall_fmap.
  eapply Forall_impl; [|intros w Hw; apply MakeFirstUpperCase_free, Hw; done].
  destruct Hfree as [->|Hfree]; [apply Split_free|by apply Split_allBytes].
Qed.

Lemma upperFirst_segments_ascii d s :
  allBytes GoStr.is_ascii s = true →
  allBytes GoStr.is_ascii (appendUpperFirst "" (GoStr.Split s d)) = true.
Proof.
  intros Hs. rewrite appendUpperFirst_join app_empty_l.
  apply joinAll_allBytes, Forall_fmap.
  eapply Forall_impl; [by apply Split_allBytes|].
  intros w Hw. by apply MakeFirstUpperCase_is_ascii.
Qed.

Lemma remove_free c old s :
  freeOf c s = true → freeOf c (GoStr.ReplaceAll s old "") = true.
Proof. intros Hs. by apply ReplaceAll_allBytes. Qed.

Lemma genRubyFieldName_safe name : identifierSafe (genRubyFieldName name) = true.
Proof.
  rewrite /genRubyFieldName /identifierSafe. cbv zeta.
  set (f1 := appendUpperFirst "" (GoStr.Split name ":")).
  set (f2 := appendUpperFirst "" (GoStr.Split f1 ".")).
  assert (freeOf ":" f1 = true) as H1.
  { apply upperFirst_segments_free; [set_solver|by left]. }
  assert (freeOf ":" f2 = true) as H2.
  { apply upperFirst_segments_free; [set_solver|by right]. }
  assert (freeOf "." f2 = true) as H3.
  { apply upperFirst_segments_free; [set_solver|by left]. }
  rewrite (remove_free ":"); [by apply remove_free|].
  rewrite (remove_free "."); [by apply remove_free|].
  rewrite (remove_free "-"); [by apply ReplaceAll_removes|].
  by rewrite ReplaceAll_removes.
Qed.

Lemma rubyBuildinType_safe name :
  is_Some (rubyBuildinType !! name) →
  typeSafe name = true ∧ genRubyFieldType name = name.
Proof.
  intros [b Hb]. split; [|by rewrite /genRubyFieldType Hb].
  apply elem_of_list_to_map_2 in Hb.
  repeat (apply elem_of_cons in Hb as [Hb|Hb]; [by simplify_eq|]).
  by apply elem_of_nil in Hb.
Qed.

Lemma genRubyFieldType_safe name : typeSafe (genRubyFieldType name) = true.
Proof.
  rewrite /genRubyFieldType.
  destruct (rubyBuildinType !! name) as [b|] eqn:Hb.
  { apply rubyBuildinType_safe. by rewrite Hb. }
  cbv zeta. case_bool_decide; [|done].
  set (x := appendUpperFirst "" (GoStr.Split name ".")).
  assert (freeOf "." x = true) as H1.
  { apply upperFirst_segments_free; [set_solver|by left]. }
  rewrite /typeSafe ReplaceAll_removes //.
  rewrite (remove_free ".");
    [by apply MakeFirstUpperCase_free; [set_solver|apply remove_free]|].
  rewrite (remove_free "-"); [|done].
  by apply MakeFirstUpperCase_free; [set_solver|apply ReplaceAll_removes].
Qed.

Lemma genRubyFieldType_fixed name :
  GoStr.all_ascii name = true → freeOf "_" name = true →
  genRubyFieldType (genRubyFieldType name) = genRubyFieldType name.
Proof.
  rewrite all_ascii_allBytes. intros Hascii Hfree.
  rewrite {2 3}/genRubyFieldType.
  destruct (rubyBuildinType !! name) as [b|] eqn:Hb.
  { by rewrite /genRubyFieldType Hb. }
  cbv zeta.
  set (x := appendUpperFirst "" (GoStr.Split name ".")).
  set (y := GoStr.ReplaceAll x "-" "").
  assert (allBytes GoStr.is_ascii y = true) as Hy.
  { apply ReplaceAll_allBytes; [done|]. by apply upperFirst_segments_ascii. }
  assert (freeOf "_" y = true) as Hyu.
  { apply remove_free, upperFirst_segments_free; [set_solver|by right]. }
  assert (freeOf "." y = true) as Hyd.
  { apply remove_free, upperFirst_segments_free; [set_solver|by left]. }
  assert (freeOf "-" y = true) as Hyh by by apply ReplaceAll_removes.
  assert (asciiFirst y = true) as Hfirst.
  { destruct y; [done|]. simpl in Hy. by apply andb_prop in Hy as [? _]. }
  set (w := MakeFirstUpperCase y).
  assert (MakeFirstUpperCase w = w) as Hw by by apply MakeFirstUpperCase_twice.
  rewrite (ReplaceAll_absent w); [by apply MakeFirstUpperCase_free; [set_solver|]|].
  case_bool_decide as Hne; [|done].
  rewrite /genRubyFieldType.
  destruct (rubyBuildinType !! w); [done|]. cbv zeta.
  rewrite Split_absent; [by apply MakeFirstUpperCase_free; [set_solver|]|].
  rewrite /appendUpperFirst /= app_empty_l Hw.
  rewrite (ReplaceAll_absent w "-");
    [by apply MakeFirstUpperCase_free; [set_solver|]|].
  rewrite Hw (ReplaceAll_absent w "_");
    [by apply MakeFirstUpperCase_free; [set_solver|]|].
  by rewrite bool_decide_eq_true_2.
Qed.
End identifier_facts.

(** X7: the class identifier that [genRubyFieldName] computes holds none of
    the separators [:], [.], [-] and [_], whatever the schema name. *)
Theorem genRubyFieldName_no_separator (name : string) :
  identifierSafe (genRubyFieldName name) = true.
Proof. apply genRubyFieldName_safe. Qed.

(** X8: the type name that [genRubyFieldType] computes holds none of [.],
    [-] and [_], whether it is a built-in spelling, a normalised name or the
    default. *)
Theorem genRubyFieldType_no_separator (name : string) :
  typeSafe (genRubyFieldType name) = true.
Proof. apply genRubyFieldType_safe. Qed.

(** X9: on an ASCII name without underscore [genRubyFieldType] is
    idempotent, so its second application in the list branch of
    [RubySimpleType] changes nothing there. *)
Theorem genRubyFieldType_idempotent (name : string) :
  GoStr.all_ascii name = true → freeOf "_" name = true →
  genRubyFieldType (genRubyFieldType name) = genRubyFieldType name.
Proof. apply genRubyFieldType_fixed. Qed.

Lemma genRubyFieldType_idempotent_witness :
  genRubyFieldType (genRubyFieldType "purchase-order.line")
  = genRubyFieldType "purchase-order.line".
Proof. apply (genRubyFieldType_idempotent "purchase-order.line"); reflexivity. Defined.

(** ** The resolver *)

Lemma resolves_resolvable name n :
  resolvable n = false → resolves name n = None.
Proof.
  destruct n as [|v|v|v|v|v|v|]; simpl; try done.
  intros Hv. by rewrite -negb_orb in Hv |- *; rewrite Hv.
Qed.

(** X10: the answer of [getBasefromSimpleType] depends only on the plain
    simple types, the attributes and the elements of the tree: nil entries,
    list and union simple types, complex types, groups and the other kinds
    can be removed without changing it. *)
Theorem getBasefromSimpleType_resolvable (name : string) (tree : list Node) :
  getBasefromSimpleType name (filter (λ n, resolvable n) tree)
  = getBasefromSimpleType name tree.
Proof.
  induction tree as [|n tree IH]; [done|].
  rewrite filter_cons. destruct (decide (resolvable n)) as [Hn|Hn].
  - by rewrite !getBasefromSimpleType_cons IH.
  - apply Is_true_false_1 in Hn.
    by rewrite IH getBasefromSimpleType_cons resolves_resolvable.
Qed.

(** X11: [getBasefromSimpleType] invents nothing: its result is the name it
    was given or the base or type declared by a node of the tree that bears
    that name. *)
Theorem getBasefromSimpleType_origin (name : string) (tree : list Node) :
  getBasefromSimpleType name tree = name
  ∨ ∃ n, n ∈ tree
         ∧ nodeName n = Some name
         ∧ resolves name n = Some (getBasefromSimpleType name tree).
Proof.
  induction tree as [|n tree IH]; [by left|].
  rewrite getBasefromSimpleType_cons.
  destruct (resolves name n) as [t|] eqn:Hn; simpl.
  - right. exists n. split_and!; [by left| |done].
    destruct n as [|v|v|v|v|v|v|]; simplify_eq/=.
    + destruct (_ && negb _); [|done]. by case_bool_decide; simplify_eq.
    + by case_bool_decide; simplify_eq.
    + by case_bool_decide; simplify_eq.
  - destruct IH as [->|(m & Hm & Hname & Hres)]; [by left|].
    right. exists m. split_and!; [by right|done..].
Qed.

(** ** The built-in type table, further *)

Lemma BuildInTypes_rows_nonempty :
  Forall (λ r, Forall (λ t, t ≠ "") r.2) BuildInTypes_rows.
Proof. compute_done. Qed.

(** X12: [getBuildInTypeByLang] reports a name as found exactly when it is a
    key of the table; a found name comes with a non-empty spelling, a name
    not found with the empty one, whatever the language string. *)
Theorem getBuildInTypeByLang_found (value lang : string) :
  ∃ buildType ok,
    getBuildInTypeByLang value lang = Some (buildType, ok)
    ∧ (ok = true ↔ is_Some (BuildInTypes !! value))
    ∧ (buildType = "" ↔ ok = false).
Proof.
  rewrite /getBuildInTypeByLang.
  destruct (BuildInTypes !! value) as [row|] eqn:Hrow.
  - pose proof (BuildInTypes_length _ _ Hrow) as Hlen.
    assert (default 0 (supportLang !! lang) < length row) as Hi.
    { destruct (supportLang !! lang) as [i|] eqn:Hl; simpl; [|lia].
      apply supportLang_bound in Hl. lia. }
    destruct (lookup_lt_is_Some_2 _ _ Hi) as [t Ht]. rewrite Ht.
    exists t, true. split_and!; [done|by split; eauto|].
    apply BuildInTypes_row in Hrow.
    pose proof (proj1 (Forall_forall _ _) BuildInTypes_rows_nonempty _ Hrow)
      as Hne.
    apply list_elem_of_lookup_2 in Ht.
    pose proof (proj1 (Forall_forall _ _) Hne _ Ht). by split.
  - exists "", false. split_and!; [done| |done].
    split; [done|]. by intros [? ?].
Qed.

(** ** Documentation comments *)

Section comment_facts.
Implicit Types (s t prefix : string).

Lemma prefix_app s t : String.prefix s (s +:+ t) = true.
Proof.
  induction s as [|b s IH]; [by destruct t|].
  rewrite app_String /=. by destruct (ascii_dec b b).
Qed.

Lemma commentedLines_free prefix s t :
  freeOf "010" s = true →
  commentedLines prefix (s +:+ t) = commentedLines prefix t.
Proof.
  induction s as [|b s IH]; [done|]. intros Hfree.
  rewrite /freeOf /= -/(freeOf _ _) in Hfree.
  apply andb_prop in Hfree as [Hb Hs]. apply negb_true_iff in Hb.
  by rewrite app_String /= Hb IH.
Qed.

Lemma commentedLines_break prefix t :
  freeOf "010" prefix = true →
  commentedLines prefix (CR +:+ LF +:+ prefix +:+ " " +:+ t)
  = commentedLines prefix t.
Proof.
  intros Hp.
  change (CR +:+ LF +:+ prefix +:+ " " +:+ t)
    with (String "013" (String "010" (prefix +:+ " " +:+ t))).
  rewrite /= -(string_app_assoc prefix " " t) prefix_app orb_true_r /=.
  by rewrite string_app_assoc commentedLines_free.
Qed.

Lemma commentedLines_doc prefix doc :
  freeOf "010" prefix = true →
  commentedLines prefix
    (GoStr.Replacer [("010"%char, CR +:+ LF +:+ prefix +:+ " ");
                     ("009"%char, "")] doc +:+ CR +:+ LF) = true.
Proof.
  intros Hp. induction doc as [|b doc IH]; [done|].
  rewrite /= -/(GoStr.Replacer _ doc).
  case_bool_decide as Hlf.
  - by rewrite !string_app_assoc commentedLines_break.
  - case_bool_decide as Htab; [by rewrite app_empty_l|].
    by rewrite app_String /= bool_decide_eq_false_2.
Qed.
End comment_facts.

(** X13: when neither the name nor the prefix holds a line feed, every line
    of the comment that [genFieldComment] builds after the first, empty one
    starts with the prefix and a blank: a documentation text of several lines
    stays inside the comment. *)
Theorem genFieldComment_lines (name doc prefix : string) :
  freeOf "010" name = true → freeOf "010" prefix = true →
  commentedLines prefix (genFieldComment name doc prefix) = true.
Proof.
  intros Hname Hprefix. rewrite /genFieldComment. cbv zeta.
  case_bool_decide.
  - rewrite commentedLines_break // commentedLines_free //.
  - rewrite commentedLines_break // commentedLines_free //.
    rewrite (commentedLines_free prefix " is ") //.
    by apply commentedLines_doc.
Qed.

Lemma genFieldComment_lines_witness :
  commentedLines "#"
    (genFieldComment "Order" ("first" +:+ LF +:+ TAB +:+ "second") "#") = true.
Proof. apply (genFieldComment_lines "Order"); reflexivity. Defined.

(** ** What a pass keeps *)

Section frame_facts.
Context (rt : GoRuntime).
Implicit Types (gen : CodeGenerator) (n : Node) (k : string).

Lemma dispatch_flag gen n :
  ImportEncodingXML gen = true → ImportEncodingXML (dispatch rt gen n) = true.
Proof.
  intros Hflag.
  destruct n as [|v|v|v|v|v|v|]; simpl; try done;
    rewrite ?/RubySimpleType ?/RubyComplexType ?/RubyGroup
      ?/RubyAttributeGroup ?/RubyElement ?/RubyAttribute /openBody;
    by repeat case_match; simplify_eq/=.
Qed.

Lemma pass_flag gen nodes :
  ImportEncodingXML gen = true → ImportEncodingXML (pass rt gen nodes) = true.
Proof.
  revert gen. induction nodes as [|n nodes IH]; intros gen Hflag; [done|].
  rewrite pass_cons. by apply IH, dispatch_flag.
Qed.

Lemma dispatch_dom gen n :
  dom (StructAST (dispatch rt gen n))
  = dom (StructAST gen) ∪ nodeNames [n].
Proof.
  rewrite /nodeNames /=.
  destruct (nodeName n) as [k|] eqn:Hn.
  - destruct (StructAST gen !! k) as [c|] eqn:Hk.
    + rewrite (dispatch_cached rt gen n k) //. apply elem_of_dom_2 in Hk.
      set_solver.
    + destruct (dispatch_fresh rt gen n k Hn Hk) as (c & -> & _).
      rewrite dom_insert_L. set_solver.
  - rewrite dispatch_unnamed //. set_solver.
Qed.

Lemma pass_dom gen nodes :
  dom (StructAST (pass rt gen nodes)) = dom (StructAST gen) ∪ nodeNames nodes.
Proof.
  revert gen. induction nodes as [|n nodes IH]; intros gen.
  - rewrite /nodeNames /=. set_solver.
  - rewrite pass_cons IH dispatch_dom /nodeNames /=.
    destruct (nodeName n); set_solver.
Qed.

(** A pass over nodes whose names are all cached changes nothing. *)
Lemma pass_all_cached gen nodes :
  nodeNames nodes ⊆ dom (StructAST gen) → pass rt gen nodes = gen.
Proof.
  induction nodes as [|n nodes IH]; [done|]. intros Hsub.
  rewrite /nodeNames /= in Hsub. rewrite /nodeNames in IH.
  destruct (nodeName n) as [k|] eqn:Hn.
  - rewrite pass_cons (dispatch_cached rt gen n k) //.
    + apply elem_of_dom. set_solver.
    + apply IH. set_solver.
  - rewrite pass_cons dispatch_unnamed //. by apply IH.
Qed.
End frame_facts.

(** X14: a pass reads the proto tree and the file name and never writes
    them; it never lowers the flag, and it only appends to the
    accumulator. *)
Theorem pass_frame (rt : GoRuntime) (gen : CodeGenerator) (nodes : list Node) :
  ProtoTree (pass rt gen nodes) = ProtoTree gen
  ∧ File (pass rt gen nodes) = File gen
  ∧ implb (ImportEncodingXML gen) (ImportEncodingXML (pass rt gen nodes)) = true
  ∧ ∃ text, Field (pass rt gen nodes) = Field gen +:+ text.
Proof.
  split_and!.
  - apply pass_ProtoTree.
  - apply pass_File.
  - destruct (ImportEncodingXML gen) eqn:Hflag; [|done].
    by rewrite pass_flag.
  - rewrite pass_Field. by eexists.
Qed.

(** X15: after a pass the cache holds an entry for exactly the names it held
    before and the names of the nodes passed over, whether or not a node
    emitted. *)
Theorem pass_cache_domain (rt : GoRuntime) (gen : CodeGenerator)
    (nodes : list Node) :
  dom (StructAST (pass rt gen nodes)) = dom (StructAST gen) ∪ nodeNames nodes.
Proof. apply pass_dom. Qed.

(** X16: [GenRuby] called a second time on the generator it has left emits
    nothing more: all names are cached, and the generator stays as it is. *)
Theorem GenRuby_twice (rt : GoRuntime) (sink sink' : Sink) (gen : CodeGenerator) :
  let once := (GenRuby rt sink gen).1 in
  (GenRuby rt sink' once).1 = once.
Proof.
  assert (∀ s g, (GenRuby rt s g).1 = pass rt g (ProtoTree g)) as Hpass.
  { intros s g. rewrite /GenRuby. by destruct (os_Create _ _). }
  cbv zeta. rewrite !Hpass pass_ProtoTree.
  apply pass_all_cached. rewrite pass_dom. set_solver.
Qed.

(** X17: a failure to create the output file is returned to the caller as it
    is; the pass has run all the same, and the generator holds its
    result. *)
Theorem GenRuby_create_failure (rt : GoRuntime) (sink : Sink)
    (gen : CodeGenerator) (e : error) :
  os_Create sink (File gen +:+ ".rb") = Some e →
  GenRuby rt sink gen = (pass rt gen (ProtoTree gen), Some e).
Proof. intros He. by rewrite /GenRuby pass_File He. Qed.

Lemma GenRuby_create_failure_witness :
  GenRuby forwardRuntime readOnlyDisk
    (newGenerator "out" [ElementNode Code_element])
  = (pass forwardRuntime (newGenerator "out" [ElementNode Code_element])
       [ElementNode Code_element],
     Some "permission denied").
Proof.
  apply (GenRuby_create_failure forwardRuntime readOnlyDisk
           (newGenerator "out" [ElementNode Code_element])).
  reflexivity.
Defined.

(** ** Determinism up to the order of union members *)

Section order_facts.
Implicit Types (rt : GoRuntime) (gen : CodeGenerator).

Lemma short_permutations {A} (l l1 l2 : list A) :
  length l ≤ 1 → l1 ≡ₚ l → l2 ≡ₚ l → l1 = l2.
Proof.
  intros Hlen H1 H2. destruct l as [|x [|y l]]; simpl in Hlen; [| |lia].
  - apply Permutation_nil_r in H1, H2. by subst.
  - apply Permutation_singleton_r in H1, H2. by subst.
Qed.

Lemma dispatch_order rt1 rt2 gen n :
  admissible rt1 → admissible rt2 →
  unicode_ToLower rt1 = unicode_ToLower rt2 →
  singleOrder n = true →
  dispatch rt1 gen n = dispatch rt2 gen n.
Proof.
  intros Ha1 Ha2 Hlower Hn.
  destruct rt1 as [order1 lower1], rt2 as [order2 lower2].
  simpl in Hlower. subst lower2.
  destruct n as [|v|v|v|v|v|v|]; try reflexivity.
  simpl in Hn. rewrite /= /RubySimpleType.
  destruct (SimpleType.Union v) eqn:Hu; simpl in Hn; [|reflexivity].
  apply bool_decide_eq_true_1 in Hn.
  assert (order1 (SimpleType.Name v) (SimpleType.MemberTypes v)
          = order2 (SimpleType.Name v) (SimpleType.MemberTypes v)) as Horder.
  { eapply short_permutations; [|apply Ha1|apply Ha2].
    by rewrite length_map_to_list. }
  by rewrite /= Horder.
Qed.
End order_facts.

(** X18: the order in which the runtime ranges over a map is the only thing
    outside the tree that the output depends on: two admissible runtimes
    with the same case tables, run over nodes among which no union has two
    or more member types, leave the same generator. *)
Theorem pass_order_independent (rt1 rt2 : GoRuntime) (gen : CodeGenerator)
    (nodes : list Node) :
  admissible rt1 → admissible rt2 →
  unicode_ToLower rt1 = unicode_ToLower rt2 →
  Forall (λ n, singleOrder n = true) nodes →
  pass rt1 gen nodes = pass rt2 gen nodes.
Proof.
  intros Ha1 Ha2 Hlower Hnodes. revert gen.
  induction Hnodes as [|n nodes Hn _ IH]; intros gen; [done|].
  by rewrite !pass_cons (dispatch_order rt1 rt2) // IH.
Qed.

(** A union with a single member type. *)
Lemma pass_order_independent_witness :
  let Euro :=
    SimpleTypeNode (SimpleType.Build "Euro" "" "" false true {[ "EUR" := "" ]}) in
  pass forwardRuntime (newGenerator "" [Euro]) [Euro]
  = pass backwardRuntime (newGenerator "" [Euro]) [Euro].
Proof.
  apply (pass_order_independent forwardRuntime backwardRuntime).
  - apply forwardRuntime_admissible.
  - apply backwardRuntime_admissible.
  - reflexivity.
  - repeat constructor.
Defined.

(** ** Every member has its line *)

Section member_facts.
Context (piece : string).
Implicit Types (s a b : string).

Lemma holdsText_here : holdsText piece piece.
Proof. exists "", "". by rewrite app_empty_r. Qed.

Lemma holdsText_app_l a s : holdsText s piece → holdsText (a +:+ s) piece.
Proof.
  intros (pre & post & ->). exists (a +:+ pre), post.
  by rewrite string_app_assoc.
Qed.

Lemma holdsText_app_r s b : holdsText s piece → holdsText (s +:+ b) piece.
Proof.
  intros (pre & post & ->). exists pre, (post +:+ b).
  by rewrite !string_app_assoc.
Qed.

Lemma holdsText_foldl {A} (f : string → A → string) init (l : list A) :
  (∀ c x, f c x = c +:+ f "" x) →
  holdsText init piece → holdsText (foldl f init l) piece.
Proof.
  intros Hf Hinit. rewrite foldl_append_init //. by apply holdsText_app_r.
Qed.

Lemma holdsText_groupMembers rt gen init groups :
  holdsText init piece → holdsText (groupMembers rt gen init groups) piece.
Proof. by apply holdsText_foldl. Qed.

(** The line of a member of the list a loop ranges over. *)
Lemma holdsText_member {A} (f : string → A → string) init (l : list A) x :
  (∀ c x, f c x = c +:+ f "" x) →
  x ∈ l → f "" x = piece → holdsText (foldl f init l) piece.
Proof.
  intros Hf (l1 & l2 & ->)%list_elem_of_split Hx.
  rewrite foldl_app /=. apply holdsText_foldl; [done|].
  rewrite Hf Hx. apply holdsText_app_l, holdsText_here.
Qed.
End member_facts.

Create HintDb members.
#[local] Hint Resolve holdsText_app_l holdsText_app_r
  holdsText_groupMembers : members.
#[local] Hint Extern 1 (holdsText (foldl _ _ ?l) _) =>
  match goal with
  | H : _ ∈ l |- _ =>
      eapply holdsText_member; [by intros ? ?|exact H|reflexivity]
  end : members.
#[local] Hint Extern 3 (holdsText (foldl _ _ _) _) =>
  apply holdsText_foldl; [by intros ? ?|] : members.

(** X19: the declaration that [RubyComplexType] emits holds one line for
    every attribute and one for every element of the complex type, with the
    member's snake-case name, its resolved type and its raw name as tag; the
    line starts with [has_many] when the member's plurality flag is set, and
    with [attribute] or [element] when it is not. *)
Theorem RubyComplexType_members (rt : GoRuntime) (gen : CodeGenerator)
    (v : ComplexType.t) :
  StructAST gen !! ComplexType.Name v = None →
  (∀ a, a ∈ ComplexType.Attributes v →
     holdsText (Field (RubyComplexType rt v gen))
       (fmtMember (if Attribute.Plural a then "has_many" else "attribute")
          (ToSnakeCase rt (genRubyFieldName (Attribute.Name a)))
          (resolvedType gen (Attribute.Type_ a)) (Attribute.Name a)))
  ∧ (∀ e, e ∈ ComplexType.Elements v →
       holdsText (Field (RubyComplexType rt v gen))
         (fmtMember (if Element.Plural e then "has_many" else "element")
            (ToSnakeCase rt (genRubyFieldName (Element.Name e)))
            (resolvedType gen (Element.Type_ e)) (Element.Name e))).
Proof.
  intros Hk. split.
  - intros a Ha. rewrite /RubyComplexType Hk /openBody.
    case_bool_decide; rewrite /= cached_store /fmtClass;
      solve [eauto 30 with members].
  - intros e He. rewrite /RubyComplexType Hk /openBody.
    case_bool_decide; rewrite /= cached_store /fmtClass;
      solve [eauto 30 with members].
Qed.

Lemma RubyComplexType_members_witness :
  holdsText
    (Field (RubyComplexType forwardRuntime purchase_order (newGenerator "" [])))
    (fmtMember "attribute" "id" "string" "id").
Proof.
  apply (proj1 (RubyComplexType_members forwardRuntime (newGenerator "" [])
                  purchase_order eq_refl)
           (Attribute.Build "id" "" "string" false)).
  apply list_elem_of_here.
Defined.

(** X20: under an admissible runtime the declaration of a union simple type
    that is no list holds one line for every entry of the member-type map,
    tagged with the member name; an entry with an empty type takes the type
    that [getBasefromSimpleType] resolves for the member name. *)
Theorem RubySimpleType_union_members (rt : GoRuntime) (gen : CodeGenerator)
    (v : SimpleType.t) (memberName memberType : string) :
  admissible rt →
  StructAST gen !! SimpleType.Name v = None →
  SimpleType.List v = false → SimpleType.Union v = true →
  SimpleType.MemberTypes v !! memberName = Some memberType →
  holdsText (Field (RubySimpleType rt v gen))
    (fmtMember "attribute" (ToSnakeCase rt (genRubyFieldName memberName))
       (genRubyFieldType
          (if bool_decide (memberType = "")
           then getBasefromSimpleType memberName (ProtoTree gen)
           else memberType))
       memberName).
Proof.
  intros Hrt Hk Hlist Hunion Hmember.
  assert (0 < size (SimpleType.MemberTypes v)) as Hsize.
  { destruct (decide (size (SimpleType.MemberTypes v) = 0)) as [Hz|]; [|lia].
    apply map_size_empty_iff in Hz. by rewrite Hz in Hmember. }
  assert ((memberName, memberType)
          ∈ range_order rt (SimpleType.Name v) (SimpleType.MemberTypes v))
    as Hin.
  { rewrite (Hrt _ _). by apply elem_of_map_to_list. }
  rewrite /RubySimpleType Hk Hlist Hunion bool_decide_eq_true_2 // /openBody.
  case_bool_decide; rewrite /= cached_store /fmtClass;
    apply holdsText_app_l, holdsText_app_r; do 11 apply holdsText_app_l;
    apply holdsText_app_r;
    (eapply holdsText_member; [by intros ? [? ?]|exact Hin|reflexivity]).
Qed.

Lemma RubySimpleType_union_members_witness :
  holdsText
    (Field (RubySimpleType backwardRuntime Currency (newGenerator "" [])))
    (fmtMember "attribute" "eur" "EUR" "EUR").
Proof.
  apply (RubySimpleType_union_members backwardRuntime (newGenerator "" [])
           Currency "EUR" "").
  - apply backwardRuntime_admissible.
  - reflexivity.
  - reflexivity.
  - reflexivity.
  - by vm_compute.
Defined.

(** ** The branches of [RubySimpleType] *)

(** X21: the list flag comes first: a simple type flagged as a list is
    emitted as a list, or skipped when cached, whatever its union flag and
    member types. *)
Theorem RubySimpleType_list_first (rt : GoRuntime) (gen : CodeGenerator)
    (name doc base : string) (union : bool) (members : gmap string string) :
  RubySimpleType rt (SimpleType.Build name doc base true union members) gen
  = RubySimpleType rt (SimpleType.Build name doc base true false ∅) gen.
Proof.
  rewrite /RubySimpleType /=.
  destruct (StructAST gen !! name); [|done].
  by destruct (union && _).
Qed.

(** X22: a simple type is treated as a union only when the flag is set and
    the member-type map is not empty; otherwise the flag and the map are
    ignored and the type is emitted as a list or as a plain alias. *)
Theorem RubySimpleType_union_guard (rt : GoRuntime) (gen : CodeGenerator)
    (name doc base : string) (list union : bool)
    (members : gmap string string) :
  union = false ∨ members = ∅ →
  RubySimpleType rt (SimpleType.Build name doc base list union members) gen
  = RubySimpleType rt (SimpleType.Build name doc base list false ∅) gen.
Proof.
  intros Hguard. rewrite /RubySimpleType /=.
  assert (union && bool_decide (0 < size members) = false) as ->; [|done].
  destruct Hguard as [->| ->]; [done|]. by rewrite andb_false_r.
Qed.

Lemma RubySimpleType_union_guard_witness :
  RubySimpleType forwardRuntime
    (SimpleType.Build "Age" "" "xs:int" false true ∅) (newGenerator "" [])
  = RubySimpleType forwardRuntime
      (SimpleType.Build "Age" "" "xs:int" false false ∅) (newGenerator "" []).
Proof.
  apply (RubySimpleType_union_guard forwardRuntime (newGenerator "" [])
           "Age" "" "xs:int" false true ∅).
  by right.
Defined.

(** ** Attribute groups *)

(** X24: the declaration that [RubyAttributeGroup] emits holds an
    [attribute] line for every attribute of the group, and the routine does
    not read the plurality flags: the outcome is the same however they are
    set. *)
Theorem RubyAttributeGroup_members (rt : GoRuntime) (gen : CodeGenerator)
    (v : AttributeGroup.t) :
  (StructAST gen !! AttributeGroup.Name v = None →
   ∀ a, a ∈ AttributeGroup.Attributes v →
     holdsText (Field (RubyAttributeGroup rt v gen))
       (fmtMember "attribute"
          (ToSnakeCase rt (genRubyFieldName (Attribute.Name a)))
          (resolvedType gen (Attribute.Type_ a)) (Attribute.Name a)))
  ∧ (∀ f : Attribute.t → bool,
       RubyAttributeGroup rt
         (AttributeGroup.Build (AttributeGroup.Name v) (AttributeGroup.Doc v)
            (AttributeGroup.Ref v)
            ((λ a, setAttributePlural (f a) a) <$> AttributeGroup.Attributes v))
         gen
       = RubyAttributeGroup rt v gen).
Proof.
  split.
  - intros Hk a Ha. rewrite /RubyAttributeGroup Hk /openBody.
    case_bool_decide; rewrite /= cached_store /fmtClass;
      solve [eauto 30 with members].
  - intros f. rewrite /RubyAttributeGroup /=.
    destruct (StructAST gen !! AttributeGroup.Name v); [done|].
    destruct (openBody _ _ _) as [gen1 content]. by rewrite foldl_fmap.
Qed.

Lemma RubyAttributeGroup_members_witness :
  holdsText
    (Field (RubyAttributeGroup forwardRuntime
              (AttributeGroup.Build "Common" "" ""
                 [Attribute.Build "lang" "" "string" true])
              (newGenerator "" [])))
    (fmtMember "attribute" "lang" "string" "lang").
Proof.
  apply (proj1 (RubyAttributeGroup_members forwardRuntime (newGenerator "" [])
                  (AttributeGroup.Build "Common" "" ""
                     [Attribute.Build "lang" "" "string" true]))
           eq_refl (Attribute.Build "lang" "" "string" true)).
  apply list_elem_of_here.
Defined.

(** X25: for every attribute-group reference of a complex type the
    declaration holds an [element] line; its tag is the normalised
    identifier of the reference, not its raw name, and its type is resolved
    from the reference's [Ref]. *)
Theorem RubyComplexType_attribute_groups (rt : GoRuntime)
    (gen : CodeGenerator) (v : ComplexType.t) (attrGroup : AttributeGroup.t) :
  StructAST gen !! ComplexType.Name v = None →
  attrGroup ∈ ComplexType.AttributeGroup v →
  holdsText (Field (RubyComplexType rt v gen))
    (fmtMember "element"
       (ToSnakeCase rt (genRubyFieldName (AttributeGroup.Name attrGroup)))
       (resolvedType gen (AttributeGroup.Ref attrGroup))
       (genRubyFieldName (AttributeGroup.Name attrGroup))).
Proof.
  intros Hk Hin. rewrite /RubyComplexType Hk /openBody.
  case_bool_decide; rewrite /= cached_store /fmtClass;
    solve [eauto 30 with members].
Qed.

Lemma RubyComplexType_attribute_groups_witness :
  let common := AttributeGroup.Build "common-attrs" "" "xs:commonType" [] in
  holdsText
    (Field (RubyComplexType forwardRuntime
              (ComplexType.Build "Order" "" [common] [] [] [])
              (newGenerator "" [])))
    (fmtMember "element" "commonattrs" "CommonType" "Commonattrs").
Proof.
  apply (RubyComplexType_attribute_groups forwardRuntime (newGenerator "" [])
           (ComplexType.Build "Order" "" 
              [AttributeGroup.Build "common-attrs" "" "xs:commonType" []]
              [] [] [])
           (AttributeGroup.Build "common-attrs" "" "xs:commonType" [])).
  - reflexivity.
  - apply list_elem_of_here.
Defined.

(** ** Supported languages *)

(** X26: for each of the six supported languages a recognised XSD name
    yields the entry of its row at the column of that language, Go at 0
    through Ruby at 5, with [ok = true]. *)
Theorem getBuildInTypeByLang_column (value lang : string) (row : list string)
    (i : nat) :
  BuildInTypes !! value = Some row →
  languages !! i = Some lang →
  ∃ buildType, row !! i = Some buildType
    ∧ getBuildInTypeByLang value lang = Some (buildType, true).
Proof.
  intros Hrow Hlang. pose proof (BuildInTypes_length _ _ Hrow) as Hlen.
  assert (supportLang !! lang = Some i) as Hi.
  { do 6 (destruct i as [|i]; [by simplify_eq/=|]). done. }
  apply lookup_lt_Some in Hlang. simpl in Hlang.
  destruct (lookup_lt_is_Some_2 row i) as [t Ht]; [lia|].
  exists t. by rewrite /getBuildInTypeByLang Hrow Hi /= Ht.
Qed.

Lemma getBuildInTypeByLang_column_witness :
  ∃ buildType,
    ["time.Time"; "string"; "char"; "Byte"; "u8"; "DateTime"] !! 5
    = Some buildType
    ∧ getBuildInTypeByLang "dateTime" "Ruby" = Some (buildType, true).
Proof.
  apply (getBuildInTypeByLang_column "dateTime" "Ruby"
           ["time.Time"; "string"; "char"; "Byte"; "u8"; "DateTime"] 5);
    by vm_compute.
Defined.

(** * The cache, the tags and the built-in types, in full *)

(** ** What a declaration depends on *)



Section declaration_facts.
Context (rt : GoRuntime).
Implicit Types (gen : CodeGenerator) (n : Node) (k : string).

Lemma holdsText_start piece rest : holdsText (piece +:+ rest) piece.
Proof. exists "", rest. by rewrite app_empty_l. Qed.

Lemma holdsText_start2 a b rest : holdsText (a +:+ b +:+ rest) (a +:+ b).
Proof. rewrite -string_app_assoc. apply holdsText_start. Qed.

(** Every declaration names the class after the node's identifier. *)
Lemma declaration_class tree n k :
  nodeName n = Some k →
  holdsText (declaration rt tree n) ("class " +:+ genRubyFieldName k).
Proof.
  intros Hn. rewrite /declaration.
  destruct n as [|v|v|v|v|v|v|]; simplify_eq/=.
  - rewrite /RubySimpleType lookup_empty /openBody.
    repeat case_match; simplify_eq/=;
      rewrite cached_store ?/fmtClass;
      solve [eauto 10 using holdsText_start2 with members].
  - rewrite /RubyComplexType lookup_empty /openBody.
    case_bool_decide; rewrite /= cached_store /fmtClass;
      solve [eauto 10 using holdsText_start2 with members].
  - rewrite /RubyGroup lookup_empty /openBody.
    case_bool_decide; rewrite /= cached_store /fmtClass;
      solve [eauto 10 using holdsText_start2 with members].
  - rewrite /RubyAttributeGroup lookup_empty /openBody.
    case_bool_decide; rewrite /= cached_store /fmtClass;
      solve [eauto 10 using holdsText_start2 with members].
  - rewrite /RubyElement lookup_empty /= cached_store /fmtAlias.
    solve [eauto 10 using holdsText_start2 with members].
  - rewrite /RubyAttribute lookup_empty /= cached_store /fmtAlias.
    solve [eauto 10 using holdsText_start2 with members].
Qed.
End declaration_facts.

(** ** One declaration for a name *)






(** ** One cache for all kinds *)

(** C8: the cache is keyed by the raw name alone.  Once a node called [k]
    has been reached the name is cached, and any later node called [k], of
    whatever kind, leaves the generator as it found it.  The first one, when
    the name was not cached before it, appends its declaration, a text that
    declares the class of the name's identifier, and this text stays in the
    accumulator. *)
Theorem cache_shared_across_kinds (rt : GoRuntime) (gen : CodeGenerator)
    (pre mid : list Node) (n m : Node) (k : string) :
  nodeName n = Some k → nodeName m = Some k →
  let before := pass rt gen pre in
  let after := pass rt gen (pre ++ n :: mid) in
  dispatch rt after m = after
  ∧ is_Some (StructAST (dispatch rt before n) !! k)
  ∧ (StructAST before !! k = None →
     ∃ text more,
       Field (dispatch rt before n) = Field before +:+ text
       ∧ text = declaration rt (ProtoTree gen) n
       ∧ holdsText text ("class " +:+ genRubyFieldName k)
       ∧ String.length text ≠ 0
       ∧ Field after = Field before +:+ text +:+ more
       ∧ Field (dispatch rt after m) = Field before +:+ text +:+ more).
Proof.
  intros Hn Hm before after.
  assert (dispatch rt after m = after) as Hskip.
  { apply (dispatch_cached rt after m k Hm).
    rewrite /after pass_app pass_cons.
    destruct (dispatch_caches rt (pass rt gen pre) n k Hn) as [c Hc].
    exists c. by apply pass_keeps. }
  split_and!; [done|by apply dispatch_caches|].
  intros Hk.
  destruct (dispatch_fresh rt before n k Hn Hk) as (c & _ & Hfield & _).
  rewrite /before pass_ProtoTree -/before in Hfield.
  pose proof (declaration_class rt (ProtoTree gen) n k Hn) as Hclass.
  eexists _, _. split_and!; [exact Hfield|done|done| | |].
  - destruct Hclass as (a & b & ->). by destruct a.
  - rewrite /after pass_app pass_cons -/before pass_Field Hfield.
    by rewrite string_app_assoc.
  - rewrite Hskip /after pass_app pass_cons -/before pass_Field Hfield.
    by rewrite string_app_assoc.
Qed.

Lemma cache_shared_across_kinds_witness :
  let gen := newGenerator "" [ElementNode Code_element; SimpleTypeNode Code_simpleType] in
  let after := pass forwardRuntime gen [ElementNode Code_element] in
  dispatch forwardRuntime after (SimpleTypeNode Code_simpleType) = after
  ∧ (∃ text more,
       Field (dispatch forwardRuntime gen (ElementNode Code_element))
       = "" +:+ text
       ∧ text = declaration forwardRuntime
                  [ElementNode Code_element; SimpleTypeNode Code_simpleType]
                  (ElementNode Code_element)
       ∧ holdsText text "class Code"
       ∧ String.length text ≠ 0
       ∧ Field after = "" +:+ text +:+ more
       ∧ Field (dispatch forwardRuntime after (SimpleTypeNode Code_simpleType))
         = "" +:+ text +:+ more).
Proof.
  pose proof (cache_shared_across_kinds forwardRuntime
    (newGenerator "" [ElementNode Code_element; SimpleTypeNode Code_simpleType])
    [] [] (ElementNode Code_element) (SimpleTypeNode Code_simpleType)
    "Code" eq_refl eq_refl) as (Hskip & _ & Hemit).
  split; [exact Hskip|]. apply Hemit. reflexivity.
Defined.


(** ** Serialization tags, for every kind of node *)

(** C4, as the code has it: the declarations with a body, those of a
    complex type, a group, an attribute group and a union simple type that
    is no list, carry the tag line of the raw name, and raise the flag,
    whenever the identifier differs from the raw name.  The aliases emitted
    for elements, attributes, list and plain simple types are the comment,
    the class identifier and the resolved type and nothing more: these
    routines write no tag line and leave the flag as it is, whether or not
    the identifier differs from the raw name. *)
Theorem class_declarations_carry_tag (rt : GoRuntime) (gen : CodeGenerator) :
  (∀ v : ComplexType.t,
     StructAST gen !! ComplexType.Name v = None →
     genRubyFieldName (ComplexType.Name v) ≠ ComplexType.Name v →
     tagged gen (RubyComplexType rt v gen) (ComplexType.Name v))
  ∧ (∀ v : Group.t,
       StructAST gen !! Group.Name v = None →
       genRubyFieldName (Group.Name v) ≠ Group.Name v →
       tagged gen (RubyGroup rt v gen) (Group.Name v))
  ∧ (∀ v : AttributeGroup.t,
       StructAST gen !! AttributeGroup.Name v = None →
       genRubyFieldName (AttributeGroup.Name v) ≠ AttributeGroup.Name v →
       tagged gen (RubyAttributeGroup rt v gen) (AttributeGroup.Name v))
  ∧ (∀ v : SimpleType.t,
       StructAST gen !! SimpleType.Name v = None →
       genRubyFieldName (SimpleType.Name v) ≠ SimpleType.Name v →
       SimpleType.List v = false → SimpleType.Union v = true →
       0 < size (SimpleType.MemberTypes v) →
       tagged gen (RubySimpleType rt v gen) (SimpleType.Name v))
  ∧ (∀ v : Element.t,
       StructAST gen !! Element.Name v = None →
       Field (RubyElement v gen)
       = Field gen
         +:+ fmtAlias
               (genFieldComment (genRubyFieldName (Element.Name v))
                  (Element.Doc v) "#")
               (genRubyFieldName (Element.Name v))
               (" < "
                +:+ (if Element.Plural v then "Array"
                     else resolvedType gen (Element.Type_ v))
                +:+ "; ")
       ∧ ImportEncodingXML (RubyElement v gen) = ImportEncodingXML gen)
  ∧ (∀ v : Attribute.t,
       StructAST gen !! Attribute.Name v = None →
       Field (RubyAttribute v gen)
       = Field gen
         +:+ fmtAlias
               (genFieldComment (genRubyFieldName (Attribute.Name v))
                  (Attribute.Doc v) "#")
               (genRubyFieldName (Attribute.Name v))
               (" < "
                +:+ (if Attribute.Plural v then "Array"
                     else resolvedType gen (Attribute.Type_ v))
                +:+ "; ")
       ∧ ImportEncodingXML (RubyAttribute v gen) = ImportEncodingXML gen)
  ∧ (∀ v : SimpleType.t,
       StructAST gen !! SimpleType.Name v = None →
       SimpleType.List v = true →
       Field (RubySimpleType rt v gen)
       = Field gen
         +:+ genFieldComment (genRubyFieldName (SimpleType.Name v))
               (SimpleType.Doc v) "#"
         +:+ LF +:+ "class " +:+ genRubyFieldName (SimpleType.Name v)
         +:+ " <  "
         +:+ genRubyFieldType (resolvedType gen (SimpleType.Base v))
         +:+ "; end" +:+ LF
       ∧ ImportEncodingXML (RubySimpleType rt v gen) = ImportEncodingXML gen)
  ∧ (∀ v : SimpleType.t,
       StructAST gen !! SimpleType.Name v = None →
       SimpleType.List v = false →
       SimpleType.Union v = false ∨ SimpleType.MemberTypes v = ∅ →
       Field (RubySimpleType rt v gen)
       = Field gen
         +:+ TAB
         +:+ genFieldComment (genRubyFieldName (SimpleType.Name v))
               (SimpleType.Doc v) "#"
         +:+ TAB +:+ "class " +:+ genRubyFieldName (SimpleType.Name v)
         +:+ " < " +:+ resolvedType gen (SimpleType.Base v)
         +:+ "; end" +:+ LF
       ∧ ImportEncodingXML (RubySimpleType rt v gen) = ImportEncodingXML gen).
Proof.
  split_and!.
  - intros v Hk Hne.
    rewrite /RubyComplexType Hk /openBody bool_decide_eq_true_2 //.
    split; [|done]. eexists; split; [reflexivity|].
    rewrite cached_store /fmtClass app_empty_l. solve [eauto 20 with carries].
  - intros v Hk Hne.
    rewrite /RubyGroup Hk /openBody bool_decide_eq_true_2 //.
    split; [|done]. eexists; split; [reflexivity|].
    rewrite cached_store /fmtClass app_empty_l. solve [eauto 20 with carries].
  - intros v Hk Hne.
    rewrite /RubyAttributeGroup Hk /openBody bool_decide_eq_true_2 //.
    split; [|done]. eexists; split; [reflexivity|].
    rewrite cached_store /fmtClass app_empty_l. solve [eauto 20 with carries].
  - intros v Hk Hne Hlist Hunion Hsize.
    rewrite /RubySimpleType Hk Hlist Hunion bool_decide_eq_true_2 //
      /openBody bool_decide_eq_true_2 //.
    split; [|done]. eexists; split; [reflexivity|].
    rewrite cached_store /fmtClass app_empty_l. solve [eauto 20 with carries].
  - intros v Hk. by rewrite /RubyElement Hk /= cached_store.
  - intros v Hk. by rewrite /RubyAttribute Hk /= cached_store.
  - intros v Hk Hlist.
    rewrite /RubySimpleType Hk Hlist /= cached_store.
    split; [|done]. by rewrite !string_app_assoc.
  - intros v Hk Hlist Hguard.
    assert (SimpleType.Union v
            && bool_decide (0 < size (SimpleType.MemberTypes v)) = false)
      as Hplain.
    { destruct Hguard as [->| ->]; [done|]. by rewrite andb_false_r. }
    rewrite /RubySimpleType Hk Hlist Hplain /= cached_store.
    split; [|done]. by rewrite !string_app_assoc.
Qed.

Lemma class_declarations_carry_tag_witness :
  tagged (newGenerator "" [])
    (RubyComplexType forwardRuntime purchase_order (newGenerator "" []))
    "purchase-order"
  ∧ Field (RubyElement customer_id (newGenerator "" []))
    = "" +:+ fmtAlias (genFieldComment "Customerid" "" "#") "Customerid"
               " < string; "
  ∧ ImportEncodingXML (RubyElement customer_id (newGenerator "" [])) = false.
Proof.
  pose proof (class_declarations_carry_tag forwardRuntime (newGenerator "" []))
    as (Hcomplex & _ & _ & _ & Helement & _).
  split.
  - apply (Hcomplex purchase_order); [reflexivity|by vm_compute].
  - apply (Helement customer_id). reflexivity.
Defined.

(** ** Built-in types and the tree scan *)

Lemma BuildInTypes_names_normalised :
  Forall (λ r, genRubyFieldType r.1
               = if bool_decide (is_Some (rubyBuildinType !! r.1))
                 then r.1 else MakeFirstUpperCase r.1)
    BuildInTypes_rows.
Proof. compute_done. Qed.

(** C5, as the code has it: [genRubyFieldType] takes no tree and does not
    read the built-in type table.  It returns its argument unchanged when
    the argument is one of the Ruby spellings of [rubyBuildinType], and every
    spelling in the Ruby column of the table comes back unchanged.  An XSD
    name of the table comes back as it is when it is such a spelling, and
    with its first letter upper-cased otherwise, whatever the table holds for
    it.  The field type of a type reference, as [RubyElement] caches it for
    a singular element, is [genRubyFieldType] of the answer of the tree scan
    on the reference without its prefix: when a node of the tree answers the
    scan, the field type comes from that node's base or type, also for a
    reference that is a name of the table. *)
Theorem genRubyFieldType_builtin_spelling :
  (∀ name, is_Some (rubyBuildinType !! name) → genRubyFieldType name = name)
  ∧ (∀ value t, getBuildInTypeByLang value "Ruby" = Some (t, true) →
       genRubyFieldType t = t)
  ∧ (∀ value, is_Some (BuildInTypes !! value) →
       genRubyFieldType value
       = if bool_decide (is_Some (rubyBuildinType !! value))
         then value else MakeFirstUpperCase value)
  ∧ (∀ gen reference pre ele post t,
       ProtoTree gen = pre ++ ele :: post →
       Forall (λ e, resolves (trimNSPrefix reference) e = None) pre →
       resolves (trimNSPrefix reference) ele = Some t →
       resolvedType gen reference = genRubyFieldType t)
  ∧ (∀ gen reference,
       Forall (λ e, resolves (trimNSPrefix reference) e = None)
         (ProtoTree gen) →
       resolvedType gen reference = genRubyFieldType (trimNSPrefix reference))
  ∧ (∀ gen (v : Element.t),
       StructAST gen !! Element.Name v = None → Element.Plural v = false →
       StructAST (RubyElement v gen) !! Element.Name v
       = Some (" < " +:+ resolvedType gen (Element.Type_ v) +:+ "; ")).
Proof.
  split_and!.
  - intros name [b Hb]. by rewrite /genRubyFieldType Hb.
  - intros value t. rewrite /getBuildInTypeByLang.
    destruct (BuildInTypes !! value) as [row|] eqn:Hrow; [|done].
    apply BuildInTypes_row in Hrow.
    change (default 0 (supportLang !! "Ruby")) with 5.
    destruct (row !! 5) as [t'|] eqn:Ht; [|done]. intros [= ->].
    by apply (proj1 (Forall_forall _ _) Ruby_column_fixed _ Hrow).
  - intros value [row Hrow%BuildInTypes_row].
    by apply (proj1 (Forall_forall _ _) BuildInTypes_names_normalised _ Hrow).
  - intros gen reference pre ele post t Htree Hpre Hele.
    rewrite /resolvedType Htree getBasefromSimpleType_skip //.
    by rewrite getBasefromSimpleType_cons Hele.
  - intros gen reference Hall. rewrite /resolvedType.
    rewrite -(app_nil_r (ProtoTree gen)). by rewrite getBasefromSimpleType_skip.
  - intros gen v Hk Hplural.
    by rewrite /RubyElement Hk Hplural /= lookup_insert_eq.
Qed.

Lemma genRubyFieldType_builtin_spelling_witness :
  genRubyFieldType "DateTime" = "DateTime"
  ∧ genRubyFieldType "Integer" = "Integer"
  ∧ genRubyFieldType "positiveInteger" = "PositiveInteger"
  ∧ resolvedType (newGenerator "" [OtherNode; SimpleTypeNode string_simpleType])
      "xs:string"
    = genRubyFieldType "Foo"
  ∧ resolvedType (newGenerator "" [OtherNode]) "xs:string"
    = genRubyFieldType "string"
  ∧ StructAST
      (RubyElement customer_id
         (newGenerator "" [SimpleTypeNode string_simpleType]))
    !! "customer-id"
    = Some (" < "
            +:+ resolvedType
                  (newGenerator "" [SimpleTypeNode string_simpleType]) "string"
            +:+ "; ").
Proof.
  pose proof genRubyFieldType_builtin_spelling
    as (Hspelling & Hcolumn & Hname & Hscan & Hmiss & Helement).
  split_and!.
  - apply (Hspelling "DateTime"). vm_compute. by eexists.
  - apply (Hcolumn "positiveInteger" "Integer"). by vm_compute.
  - apply (Hname "positiveInteger"). vm_compute. by eexists.
  - apply (Hscan (newGenerator "" [OtherNode; SimpleTypeNode string_simpleType])
             "xs:string" [OtherNode] (SimpleTypeNode string_simpleType) []
             "Foo"); [reflexivity|by repeat constructor|by vm_compute].
  - apply (Hmiss (newGenerator "" [OtherNode]) "xs:string").
    by repeat constructor.
  - apply (Helement (newGenerator "" [SimpleTypeNode string_simpleType])
             customer_id); reflexivity.
Defined.

(** ** Repeated top-level aliases *)

(** X23: a repeated top-level element or attribute is declared as a
    subclass of [Array], and its declared type plays no part.  With the
    plurality flag set, [RubyElement] and [RubyAttribute] alike give the same
    outcome for every type, cache [ < Array; ] under the name and append the
    alias of the identifier to [Array]. *)
Theorem plural_alias_drops_type (gen : CodeGenerator) (name doc : string) :
  (∀ type type',
     RubyElement (Element.Build name doc type true) gen
     = RubyElement (Element.Build name doc type' true) gen
     ∧ RubyAttribute (Attribute.Build name doc type true) gen
       = RubyAttribute (Attribute.Build name doc type' true) gen)
  ∧ (StructAST gen !! name = None →
     ∀ type,
       let alias :=
         fmtAlias (genFieldComment (genRubyFieldName name) doc "#")
           (genRubyFieldName name) " < Array; " in
       StructAST (RubyElement (Element.Build name doc type true) gen) !! name
       = Some " < Array; "
       ∧ Field (RubyElement (Element.Build name doc type true) gen)
         = Field gen +:+ alias
       ∧ StructAST (RubyAttribute (Attribute.Build name doc type true) gen)
         !! name
         = Some " < Array; "
       ∧ Field (RubyAttribute (Attribute.Build name doc type true) gen)
         = Field gen +:+ alias).
Proof.
  split; [done|].
  intros Hk type.
  by rewrite /RubyElement /RubyAttribute /= Hk /= cached_store lookup_insert_eq.
Qed.

Lemma plural_alias_drops_type_witness :
  let gen := newGenerator "" [] in
  let alias := fmtAlias (genFieldComment "Items" "" "#") "Items" " < Array; " in
  StructAST (RubyElement (Element.Build "items" "" "Product" true) gen)
  !! "items"
  = Some " < Array; "
  ∧ Field (RubyElement (Element.Build "items" "" "Product" true) gen)
    = "" +:+ alias
  ∧ StructAST (RubyAttribute (Attribute.Build "items" "" "Product" true) gen)
    !! "items"
    = Some " < Array; "
  ∧ Field (RubyAttribute (Attribute.Build "items" "" "Product" true) gen)
    = "" +:+ alias.
Proof.
  apply (proj2 (plural_alias_drops_type (newGenerator "" []) "items" "")
           eq_refl "Product").
Defined.
